(** * cate.util.cache: a shallow embedding of the caching engine

    The development follows [cate/util/cache.py]: the two cache stores
    ([MemoryCacheStore], [FileCacheStore]), the replacement policies, the
    cache-private [Item] class and the [Cache] class with its public
    operations [get_value], [put_value], [remove_value], [trim] and [clear].

    Modelling conventions.
    - Python numbers (integer sizes, float times and thresholds) are exact
      rationals ([Q]); comparisons are the boolean [Qle_bool].
    - Python objects that are mutated through several references
      ([Cache.Item] instances, referenced by [_item_dict], by [_item_list]
      and by local variables) live in a per-cache heap, a list indexed by
      references; the dictionary and the list hold references.
    - [_item_dict] is an insertion-ordered association list, as a Python
      dictionary is.
    - Exceptions are the [Raise] results of an error monad; the state
      reached before a raise is not kept.
    - [time.clock() - _T0] is an oracle [clock : nat -> Q], read at the
      number of readings made so far; [sys.getsizeof] is an oracle
      [getsizeof : value -> N].
    - The methods of [Cache] call each other recursively (a child tier
      calls its parent, [_add_item] calls [trim], [trim] calls the public
      methods back); the first argument [d : nat] of each of them is the
      call depth still available, and running out of it raises
      [RecursionError], as the interpreter does.
    - The disk is a map from paths to the contents of the regular files
      at them. Directories are not recorded: [os.makedirs] succeeds on
      every path but the empty one, and a path the file store reads or
      writes is taken not to be a directory, nor its directory part a
      file.
    - The re-entrant lock only serialises threads; the model is
      single-threaded and leaves it out. *)

From Stdlib Require Import QArith Lqa.
From Stdlib.Strings Require Import Byte Ascii String.
From stdpp Require Import gmap strings list.

Open Scope Q_scope.
Open Scope stdpp_scope.
Open Scope list_scope.
Open Scope string_scope.

(** ** Exceptions and the error monad *)

Inductive exn : Type :=
| ValueError | TypeError | AttributeError | KeyError
| FileNotFoundError | RecursionError | NotImplementedError.

Inductive result (A : Type) : Type :=
| Ok (a : A)
| Raise (e : exn).
Arguments Ok {A} a.
Arguments Raise {A} e.

#[global] Instance result_ret : MRet result := fun A a => Ok a.
#[global] Instance result_bind : MBind result := fun A B f m =>
  match m with Ok a => f a | Raise e => Raise e end.

Fixpoint foldM {S A : Type} (f : S -> A -> result S) (s : S) (l : list A)
  : result S :=
  match l with
  | [] => Ok s
  | a :: l' => s' ← f s a; foldM f s' l'
  end.

Definition Qlt_bool (x y : Q) : bool := negb (Qle_bool y x).

(** ** Keys and values *)

(** A key is [None] or a string. *)
Inductive Key : Type := KNone | KStr (s : string).

#[global] Instance Key_eq_dec : EqDecision Key.
Proof. solve_decision. Defined.

(** [str(key)] *)
Definition str (k : Key) : string :=
  match k with KNone => "None" | KStr s => s end.

(** The cached values: [None], integers, strings, [bytes], a buffer with an
    [nbytes] attribute (a [memoryview]) and a PIL image, of which only the
    [size] and [mode] attributes are kept. *)
Inductive value : Type :=
| VNone
| VInt (n : Z)
| VStr (s : string)
| VBytes (b : list byte)
| VMemview (b : list byte)
| VImage (w h : N) (mode : string).

(** [bool(value)], as tested by [if value:] *)
Definition truthy (v : value) : bool :=
  match v with
  | VNone => false
  | VInt n => negb (n =? 0)%Z
  | VStr s => negb (String.eqb s "")
  | VBytes b => negb (Nat.eqb (length b) 0)
  | VMemview b => negb (Nat.eqb (length b) 0)
  | VImage _ _ _ => true
  end.

(** [item.restore(store, key)] where [item] is a cached value: none of the
    values has a [restore] attribute. *)
Definition value_restore {St : Type} (item : value) (store : St) (k : Key)
  : result value := Raise AttributeError.

Definition in_strings (m : string) (l : list string) : bool :=
  existsb (String.eqb m) l.

(** ** The world: clock readings made so far, and the files on disk *)

Record World : Type := mkWorld {
  ticks : nat;
  fs : gmap string (list byte)
}.

Definition tick (w : World) : World := mkWorld (S (ticks w)) (fs w).
Definition set_fs (w : World) (f : gmap string (list byte)) : World :=
  mkWorld (ticks w) f.

(** ** Stored representations and cache stores *)

Inductive stored : Type :=
| SMem (k : Key) (v : value)     (* the list [key, value] *)
| SPath (p : string).            (* a file path *)

Inductive CacheStore : Type :=
| MemoryCacheStore
| FileCacheStore (cache_dir ext : string).

(** [os.path.join(a, b)] of [posixpath] *)
Fixpoint ends_with_sep (a : string) : bool :=
  match a with
  | EmptyString => false
  | String c EmptyString => Ascii.eqb c "/"%char
  | String _ a' => ends_with_sep a'
  end.

Definition path_join (a b : string) : string :=
  if String.prefix "/" b then b
  else if String.eqb a "" || ends_with_sep a then a ++ b
  else a ++ "/" ++ b.

Definition _key_to_path (cache_dir ext : string) (k : Key) : string :=
  path_join cache_dir (str k ++ ext).

(** [os.path.dirname(p)] of [posixpath]: the part of [p] up to its last
    slash, without the slashes at its end unless it consists of slashes. *)
Fixpoint has_sep (p : string) : bool :=
  match p with
  | EmptyString => false
  | String c p' => Ascii.eqb c "/"%char || has_sep p'
  end.

Fixpoint head_of_path (p : string) : string :=
  match p with
  | EmptyString => EmptyString
  | String c p' =>
      if has_sep p' then String c (head_of_path p')
      else if Ascii.eqb c "/"%char then "/" else EmptyString
  end.

Fixpoint all_seps (p : string) : bool :=
  match p with
  | EmptyString => true
  | String c p' => Ascii.eqb c "/"%char && all_seps p'
  end.

Fixpoint rstrip_seps (p : string) : string :=
  match p with
  | EmptyString => EmptyString
  | String c p' =>
      match rstrip_seps p' with
      | EmptyString => if Ascii.eqb c "/"%char then EmptyString else String c EmptyString
      | r => String c r
      end
  end.

Definition dirname (p : string) : string :=
  let head := head_of_path p in
  if negb (String.eqb head "") && negb (all_seps head) then rstrip_seps head
  else head.

Section Cate.

(** [sys.getsizeof] and the readings of [time.clock() - _T0]. *)
Variable getsizeof : value -> N.
Variable clock : nat -> Q.

Definition _compute_object_size (obj : value) : Q :=
  match obj with
  | VMemview b => inject_Z (Z.of_nat (length b))
  | VImage w h m =>
      inject_Z (Z.of_N w) * inject_Z (Z.of_N h) *
      (if in_strings m ["RGBA"; "RGBx"; "I"; "F"] then 4
       else if in_strings m ["RGB"; "YCbCr"; "LAB"; "HSV"] then 3
       else if String.eqb m "1" then 1 / 8
       else 1)
  | _ => inject_Z (Z.of_N (getsizeof obj))
  end.

Definition can_load_from_key (s : CacheStore) (k : Key) (w : World) : bool :=
  match s with
  | MemoryCacheStore => false
  | FileCacheStore d e => bool_decide (is_Some (fs w !! _key_to_path d e k))
  end.

(** [os.path.getsize] *)
Definition getsize (p : string) (w : World) : result Q :=
  match fs w !! p with
  | Some b => Ok (inject_Z (Z.of_nat (length b)))
  | None => Raise FileNotFoundError
  end.

(** [MemoryCacheStore.load_from_key] is [raise NotImplemented()]: the
    constant [NotImplemented] is not callable, so evaluating the operand of
    [raise] raises [TypeError]. *)
Definition load_from_key (s : CacheStore) (k : Key) (w : World)
  : result (stored * Q) :=
  match s with
  | MemoryCacheStore => Raise TypeError
  | FileCacheStore d e =>
      let path := _key_to_path d e k in
      sz ← getsize path w; Ok (SPath path, sz)
  end.

(** [fp.write(value)] on a binary file accepts bytes-like objects only. *)
Definition bytes_like (v : value) : result (list byte) :=
  match v with
  | VBytes b | VMemview b => Ok b
  | _ => Raise TypeError
  end.

(** [os.path.exists]: the empty path names nothing. *)
Definition path_exists (p : string) (w : World) : bool :=
  negb (String.eqb p "") && bool_decide (is_Some (fs w !! p)).

(** [os.makedirs(p, exist_ok=True)]: the empty path cannot be made. *)
Definition makedirs (p : string) (w : World) : result World :=
  if String.eqb p "" then Raise FileNotFoundError else Ok w.

Definition store_value (s : CacheStore) (k : Key) (v : value) (w : World)
  : result (stored * Q * World) :=
  match s with
  | MemoryCacheStore => Ok (SMem k v, _compute_object_size v, w)
  | FileCacheStore d e =>
      let path := _key_to_path d e k in
      let dir_path := dirname path in
      w1 ← (if negb (path_exists dir_path w) then makedirs dir_path w
            else Ok w);
      b ← bytes_like v;
      let w' := set_fs w1 (<[path := b]> (fs w1)) in
      sz ← getsize path w';
      Ok (SPath path, sz, w')
  end.

Definition restore_value (s : CacheStore) (k : Key) (sv : option stored)
    (w : World) : result value :=
  match s with
  | MemoryCacheStore =>
      match sv with
      | Some (SMem k0 v) =>
          if decide (k ≠ k0) then Raise ValueError else Ok v
      | Some (SPath _) => Raise ValueError
      | None => Raise TypeError
      end
  | FileCacheStore d e =>
      match fs w !! _key_to_path d e k with
      | Some b => Ok (VBytes b)
      | None => Raise FileNotFoundError
      end
  end.

(** [os.remove] *)
Definition os_remove (p : string) (w : World) : result World :=
  match fs w !! p with
  | Some _ => Ok (set_fs w (delete p (fs w)))
  | None => Raise FileNotFoundError
  end.

(** [discard_value] returns the stored representation as the call leaves it
    (the memory store clears the value slot of the list) and the world. *)
Definition discard_value (s : CacheStore) (k : Key) (sv : option stored)
    (w : World) : result (option stored * World) :=
  match s with
  | MemoryCacheStore =>
      match sv with
      | Some (SMem k0 v) =>
          if decide (k ≠ k0) then Raise ValueError
          else Ok (Some (SMem k0 VNone), w)
      | Some (SPath _) => Raise ValueError
      | None => Raise TypeError
      end
  | FileCacheStore d e =>
      match os_remove (_key_to_path d e k) w with
      | Ok w' => Ok (sv, w')
      | Raise FileNotFoundError => Ok (sv, w)     (* except IOError: pass *)
      | Raise e => Raise e
      end
  end.

(** ** Cache items *)

Definition ref : Type := nat.

Record Item : Type := mkItem {
  key : Key;
  stored_value : option stored;
  stored_size : Q;
  creation_time : Q;
  access_time : Q;
  access_count : Z
}.

(** [Item.__init__] *)
Definition Item_new : Item := mkItem KNone None 0 0 0 0.

(** [Item._access] *)
Definition Item__access (it : Item) (w : World) : Item * World :=
  (mkItem (key it) (stored_value it) (stored_size it) (creation_time it)
          (clock (ticks w)) (access_count it + 1)%Z,
   tick w).

(** [Item.store] *)
Definition Item_store (s : CacheStore) (k : Key) (v : value) (it : Item)
    (w : World) : result (Item * World) :=
  let it1 := mkItem k (stored_value it) (stored_size it) (creation_time it)
                    (access_time it) 0%Z in
  let '(it2, w2) := Item__access it1 w in
  '(sv, sz, w3) ← store_value s k v w2;
  Ok (mkItem (key it2) (Some sv) sz (creation_time it2) (access_time it2)
             (access_count it2), w3).

(** [Item.restore] *)
Definition Item_restore (s : CacheStore) (k : Key) (it : Item) (w : World)
  : result (value * Item * World) :=
  let '(it1, w1) := Item__access it w in
  v ← restore_value s k (stored_value it1) w1;
  Ok (v, it1, w1).

(** [Item.discard]: the item is re-initialised after the store let go of
    its stored representation. *)
Definition Item_discard (s : CacheStore) (k : Key) (it : Item) (w : World)
  : result (Item * World) :=
  '(_, w1) ← discard_value s k (stored_value it) w;
  Ok (Item_new, w1).

(** [Item._load_from_key] *)
Definition Item__load_from_key (s : CacheStore) (k : Key) (it : Item)
    (w : World) : result (Item * World) :=
  let it1 := mkItem k (stored_value it) (stored_size it) (creation_time it)
                    (access_time it) 0%Z in
  let '(it2, w2) := Item__access it1 w in
  '(sv, sz) ← load_from_key s k w2;
  Ok (mkItem (key it2) (Some sv) sz (creation_time it2) (access_time it2)
             (access_count it2), w2).

(** [Item.load_from_key] (the static method) *)
Definition Item_load_from_key (s : CacheStore) (k : Key) (w : World)
  : result (option Item * World) :=
  if negb (can_load_from_key s k w) then Ok (None, w)
  else '(it, w1) ← Item__load_from_key s k Item_new w; Ok (Some it, w1).

(** ** Replacement policies *)

Definition _policy_lru (item : Item) : Q := access_time item.
Definition _policy_mru (item : Item) : Q := - access_time item.
Definition _policy_lfu (item : Item) : Q := inject_Z (access_count item).
Definition _policy_rr (item : Item) : Q :=
  inject_Z (access_count item mod 2).

Definition POLICY_LRU := _policy_lru.
Definition POLICY_MRU := _policy_mru.
Definition POLICY_LFU := _policy_lfu.
Definition POLICY_RR := _policy_rr.

(** ** Dictionaries and lists of references *)

Definition dict : Type := list (Key * ref).

Fixpoint dict_get (k : Key) (d : dict) : option ref :=
  match d with
  | [] => None
  | (k', r) :: d' => if decide (k' = k) then Some r else dict_get k d'
  end.

(** [d[k] = r]: an existing key keeps its position. *)
Fixpoint dict_set (k : Key) (r : ref) (d : dict) : dict :=
  match d with
  | [] => [(k, r)]
  | (k', r') :: d' =>
      if decide (k' = k) then (k, r) :: d' else (k', r') :: dict_set k r d'
  end.

Fixpoint dict_del (k : Key) (d : dict) : dict :=
  match d with
  | [] => []
  | (k', r) :: d' => if decide (k' = k) then d' else (k', r) :: dict_del k d'
  end.

(** [d.pop(k)] raises [KeyError] on a missing key. *)
Definition dict_pop (k : Key) (d : dict) : result dict :=
  match dict_get k d with
  | Some _ => Ok (dict_del k d)
  | None => Raise KeyError
  end.

Fixpoint remove_first (r : ref) (l : list ref) : list ref :=
  match l with
  | [] => []
  | r' :: l' => if decide (r' = r) then l' else r' :: remove_first r l'
  end.

(** [l.remove(x)] raises [ValueError] when [x] is not in the list; items
    compare by identity. *)
Definition list_remove_item (r : ref) (l : list ref) : result (list ref) :=
  if bool_decide (r ∈ l) then Ok (remove_first r l) else Raise ValueError.

(** [l.sort(key=f)]: a stable sort in ascending order of the keys. *)
Fixpoint insert_by {A : Type} (f : A -> Q) (x : A) (l : list A) : list A :=
  match l with
  | [] => [x]
  | y :: l' =>
      if Qle_bool (f x) (f y) then x :: y :: l' else y :: insert_by f x l'
  end.

Definition sort_by {A : Type} (f : A -> Q) (l : list A) : list A :=
  foldr (insert_by f) [] l.

(** ** The cache *)

#[warnings="-register-all"]
Inductive Cache : Type := mkCache {
  _store : CacheStore;
  _capacity : Q;
  _threshold : Q;
  _policy : Item -> Q;
  _parent_cache : option Cache;
  _size : Q;
  _max_size : Q;
  _item_dict : dict;
  _item_list : list ref;
  heap : list Item
}.

(** [Cache.__init__] *)
Definition Cache_new (store : CacheStore) (capacity threshold : Q)
    (policy : Item -> Q) (parent_cache : option Cache) : Cache :=
  mkCache store capacity threshold policy parent_cache 0
          (capacity * threshold) [] [] [].

Definition item_at (h : list Item) (r : ref) : Item :=
  default Item_new (h !! r).

Definition set_item (c : Cache) (r : ref) (it : Item) : Cache :=
  mkCache (_store c) (_capacity c) (_threshold c) (_policy c)
          (_parent_cache c) (_size c) (_max_size c) (_item_dict c)
          (_item_list c) (<[r := it]> (heap c)).

Definition set_parent (c : Cache) (p : Cache) : Cache :=
  mkCache (_store c) (_capacity c) (_threshold c) (_policy c)
          (Some p) (_size c) (_max_size c) (_item_dict c)
          (_item_list c) (heap c).

Definition set_size (c : Cache) (sz : Q) : Cache :=
  mkCache (_store c) (_capacity c) (_threshold c) (_policy c)
          (_parent_cache c) sz (_max_size c) (_item_dict c)
          (_item_list c) (heap c).

Definition set_index (c : Cache) (d : dict) (l : list ref) : Cache :=
  mkCache (_store c) (_capacity c) (_threshold c) (_policy c)
          (_parent_cache c) (_size c) (_max_size c) d l (heap c).

(** [Cache.Item()]: a fresh object, at the next free reference. *)
Definition alloc_item (c : Cache) : Cache * ref :=
  (mkCache (_store c) (_capacity c) (_threshold c) (_policy c)
           (_parent_cache c) (_size c) (_max_size c) (_item_dict c)
           (_item_list c) (heap c ++ [Item_new]),
   length (heap c)).

(** [Cache._remove_item] *)
Definition _remove_item (c : Cache) (item : ref) : result Cache :=
  let it := item_at (heap c) item in
  d' ← dict_pop (key it) (_item_dict c);
  l' ← list_remove_item item (_item_list c);
  Ok (set_size (set_index c d' l') (_size c - stored_size it)).

(** The first loop of [Cache.trim]: the keys to evict, walking the sorted
    item list with the running size. *)
Fixpoint trim_select (h : list Item) (l : list ref) (size extra_size max_size : Q)
  : list Key :=
  match l with
  | [] => []
  | item :: l' =>
      if Qlt_bool max_size (size + extra_size) then
        key (item_at h item)
        :: trim_select h l' (size - stored_size (item_at h item))
                       extra_size max_size
      else trim_select h l' size extra_size max_size
  end.

(** The item list as [trim] sorts it. *)
Definition sorted_items (c : Cache) : list ref :=
  sort_by (fun r => _policy c (item_at (heap c) r)) (_item_list c).

Definition trim_keys (c : Cache) (extra_size : Q) : list Key :=
  trim_select (heap c) (sorted_items c) (_size c) extra_size (_max_size c).

(** [self._parent_cache.m(...)]: run a method of the parent tier and store
    the parent's new state back; with no parent it is an attribute error on
    [None]. *)
Definition on_parent {A : Type} (c : Cache)
    (m : Cache -> World -> result (A * Cache * World)) (w : World)
  : result (A * Cache * World) :=
  match _parent_cache c with
  | Some p => '(a, p', w') ← m p w; Ok (a, set_parent c p', w')
  | None => Raise AttributeError
  end.

Definition has_parent (c : Cache) : bool :=
  match _parent_cache c with Some _ => true | None => false end.

(** The public operations and [_add_item], by recursion on the call depth. *)
Fixpoint remove_value (d : nat) (c : Cache) (k : Key) (w : World) {struct d}
  : result (Cache * World) :=
  match d with
  | O => Raise RecursionError
  | S d' =>
      '(c1, w1) ←
        (if has_parent c then
           '(_, c1, w1) ←
             on_parent c (fun p w => '(p', w') ← remove_value d' p k w;
                                     Ok (tt, p', w')) w;
           Ok (c1, w1)
         else Ok (c, w));
      match dict_get k (_item_dict c1) with
      | Some item =>
          c2 ← _remove_item c1 item;
          '(it', w2) ←
            Item_discard (_store c2) k (item_at (heap c2) item) w1;
          Ok (set_item c2 item it', w2)
      | None => Ok (c1, w1)
      end
  end.

Fixpoint get_value (d : nat) (c : Cache) (k : Key) (w : World) {struct d}
  : result (value * Cache * World) :=
  match d with
  | O => Raise RecursionError
  | S d' =>
      '(value, restored, c1, w1) ←
        match dict_get k (_item_dict c) with
        | Some item =>
            '(value, it', w1) ←
              Item_restore (_store c) k (item_at (heap c) item) w;
            Ok (value, true, set_item c item it', w1)
        | None =>
            if has_parent c then
              '(item, c1, w1) ← on_parent c (fun p => get_value d' p k) w;
              if truthy item then
                value ← value_restore item (_parent_cache c1) k;
                Ok (value, true, c1, w1)
              else Ok (VNone, false, c1, w1)
            else Ok (VNone, false, c, w)
        end;
      if negb restored then
        '(oit, w2) ← Item_load_from_key (_store c1) k w1;
        match oit with
        | Some it =>
            let '(c2, item) := alloc_item c1 in
            '(c3, w3) ← _add_item d' (set_item c2 item it) item w2;
            '(value, it', w4) ←
              Item_restore (_store c3) k (item_at (heap c3) item) w3;
            Ok (value, set_item c3 item it', w4)
        | None => Ok (value, c1, w2)
        end
      else Ok (value, c1, w1)
  end

with put_value (d : nat) (c : Cache) (k : Key) (v : value) (w : World)
    {struct d} : result (Cache * World) :=
  match d with
  | O => Raise RecursionError
  | S d' =>
      '(c1, w1) ←
        (if has_parent c then
           '(_, c1, w1) ←
             on_parent c (fun p w => '(p', w') ← remove_value d' p k w;
                                     Ok (tt, p', w')) w;
           Ok (c1, w1)
         else Ok (c, w));
      '(c2, item, w2) ←
        match dict_get k (_item_dict c1) with
        | Some item =>
            c2 ← _remove_item c1 item;
            '(it', w2) ←
              Item_discard (_store c2) k (item_at (heap c2) item) w1;
            Ok (set_item c2 item it', item, w2)
        | None => let '(c2, item) := alloc_item c1 in Ok (c2, item, w1)
        end;
      '(it', w3) ← Item_store (_store c2) k v (item_at (heap c2) item) w2;
      _add_item d' (set_item c2 item it') item w3
  end

with _add_item (d : nat) (c : Cache) (item : ref) (w : World) {struct d}
  : result (Cache * World) :=
  match d with
  | O => Raise RecursionError
  | S d' =>
      let it := item_at (heap c) item in
      let c1 := set_index c (dict_set (key it) item (_item_dict c))
                          (_item_list c ++ [item]) in
      '(c2, w2) ←
        (if Qlt_bool (_max_size c1) (_size c1 + stored_size it)
         then trim d' c1 (stored_size it) w
         else Ok (c1, w));
      Ok (set_size c2 (_size c2 + stored_size (item_at (heap c2) item)), w2)
  end

with trim (d : nat) (c : Cache) (extra_size : Q) (w : World) {struct d}
  : result (Cache * World) :=
  match d with
  | O => Raise RecursionError
  | S d' =>
      let c1 := set_index c (_item_dict c) (sorted_items c) in
      let keys := trim_select (heap c1) (_item_list c1) (_size c1)
                              extra_size (_max_size c1) in
      foldM (fun '(c, w) k =>
               if has_parent c then
                 '(value, c2, w2) ← get_value d' c k w;
                 '(c3, w3) ← remove_value d' c2 k w2;
                 if truthy value then
                   '(_, c4, w4) ←
                     on_parent c3
                       (fun p w => '(p', w') ← put_value d' p k value w;
                                   Ok (tt, p', w')) w3;
                   Ok (c4, w4)
                 else Ok (c3, w3)
               else remove_value d' c k w)
            (c1, w) keys
  end.

Fixpoint clear (d : nat) (c : Cache) (clear_parent : bool) (w : World) {struct d}
  : result (Cache * World) :=
  match d with
  | O => Raise RecursionError
  | S d' =>
      '(c1, w1) ←
        (if has_parent c && clear_parent then
           '(_, c1, w1) ←
             on_parent c (fun p w => '(p', w') ← clear d' p clear_parent w;
                                     Ok (tt, p', w')) w;
           Ok (c1, w1)
         else Ok (c, w));
      let keys := (_item_dict c1).*1 in
      foldM (fun '(c, w) k =>
               '(c2, w2) ←
                 (if has_parent c && negb clear_parent then
                    '(value, c2, w2) ← get_value d' c k w;
                    if truthy value then
                      '(_, c3, w3) ←
                        on_parent c2
                          (fun p w => '(p', w') ← put_value d' p k value w;
                                      Ok (tt, p', w')) w2;
                      Ok (c3, w3)
                    else Ok (c2, w2)
                  else Ok (c, w));
               remove_value d' c2 k w2)
            (c1, w1) keys
  end.

(** The body of the second loop of [trim], for one key, and the body of the
    loop of [clear]; [trim] and [clear] fold them over their keys. *)
Definition trim_body (d : nat) : Cache * World -> Key -> result (Cache * World) :=
  fun '(c, w) k =>
    if has_parent c then
      '(value, c2, w2) ← get_value d c k w;
      '(c3, w3) ← remove_value d c2 k w2;
      if truthy value then
        '(_, c4, w4) ←
          on_parent c3
            (fun p w => '(p', w') ← put_value d p k value w;
                        Ok (tt, p', w')) w3;
        Ok (c4, w4)
      else Ok (c3, w3)
    else remove_value d c k w.

Definition clear_body (d : nat) (clear_parent : bool)
  : Cache * World -> Key -> result (Cache * World) :=
  fun '(c, w) k =>
    '(c2, w2) ←
      (if has_parent c && negb clear_parent then
         '(value, c2, w2) ← get_value d c k w;
         if truthy value then
           '(_, c3, w3) ←
             on_parent c2
               (fun p w => '(p', w') ← put_value d p k value w;
                           Ok (tt, p', w')) w2;
           Ok (c3, w3)
         else Ok (c2, w2)
       else Ok (c, w));
    remove_value d c2 k w2.

(** The public operations as data, to state properties of sequences of
    calls; the value [get_value] returns is dropped. *)
Inductive Op : Type :=
| OpGet (k : Key)
| OpPut (k : Key) (v : value)
| OpRemove (k : Key)
| OpTrim (extra_size : Q)
| OpClear (clear_parent : bool).

Definition run_op (d : nat) (o : Op) (c : Cache) (w : World)
  : result (Cache * World) :=
  match o with
  | OpGet k => '(_, c', w') ← get_value d c k w; Ok (c', w')
  | OpPut k v => put_value d c k v w
  | OpRemove k => remove_value d c k w
  | OpTrim extra_size => trim d c extra_size w
  | OpClear clear_parent => clear d c clear_parent w
  end.

Definition run_ops (d : nat) (os : list Op) (c : Cache) (w : World)
  : result (Cache * World) :=
  foldM (fun '(c, w) o => run_op d o c w) (c, w) os.

End Cate.

(** ** Well-formed cache states

    What the operations keep of the index: the dictionary has one entry per
    key, every entry refers to an allocated item that carries the entry's
    key, a stored representation its store accepts and a non-negative size,
    and the item list holds the same references as the dictionary. *)

Definition stored_okb (s : CacheStore) (k : Key) (sv : option stored) : bool :=
  match s, sv with
  | MemoryCacheStore, Some (SMem k0 _) => bool_decide (k0 = k)
  | MemoryCacheStore, _ => false
  | FileCacheStore _ _, _ => true
  end.

Definition entry_okb (c : Cache) (e : Key * ref) : bool :=
  match heap c !! e.2 with
  | Some it =>
      bool_decide (key it = e.1)
      && stored_okb (_store c) e.1 (stored_value it)
      && Qle_bool 0 (stored_size it)
  | None => false
  end.

Definition wf_tier (c : Cache) : bool :=
  bool_decide (NoDup (_item_dict c).*1)
  && forallb (entry_okb c) (_item_dict c)
  && bool_decide (_item_list c ≡ₚ (_item_dict c).*2).

(** A tier followed by its ancestors. *)
Fixpoint tiers (c : Cache) : list Cache :=
  match c with
  | mkCache s cap th pol parent sz mx dct lst hp =>
      mkCache s cap th pol parent sz mx dct lst hp
      :: match parent with Some p => tiers p | None => [] end
  end.

Definition wf (c : Cache) : bool := forallb wf_tier (tiers c).

(** The key is in no tier's index. *)
Definition absent (k : Key) (c : Cache) : Prop :=
  Forall (fun t => dict_get k (_item_dict t) = None) (tiers c).

(** The sum of [stored_size] over a list of items. *)
Definition sum_sizes (h : list Item) (l : list ref) : Q :=
  foldr (fun r acc => stored_size (item_at h r) + acc) 0 l.

(** The sum of [stored_size] over the entries of the index. *)
Definition index_size (c : Cache) : Q :=
  sum_sizes (heap c) (_item_dict c).*2.

(** How far [_size] lags behind the sizes in the index. *)
Definition drift (c : Cache) : Q := index_size c - _size c.

(** What an operation keeps of a single tier: it stays without a parent
    and well formed, and its configuration does not change. *)
Definition kept (c c' : Cache) : Prop :=
  _parent_cache c' = None /\ wf_tier c' = true /\ _store c' = _store c
  /\ _max_size c' = _max_size c /\ _policy c' = _policy c
  /\ _capacity c' = _capacity c /\ _threshold c' = _threshold c.

(** The key a [get_value] or [put_value] was called with is resident
    afterwards (the trim triggered by the call did not evict it). *)
Definition op_key_survives (o : Op) (c' : Cache) : Prop :=
  match o with
  | OpGet k | OpPut k _ => dict_get k (_item_dict c') <> None
  | _ => True
  end.

(** A two-tier chain: a well-formed tier over a well-formed parent that
    has no parent itself. *)
Definition two_tier (c p : Cache) : Prop :=
  _parent_cache c = Some p /\ _parent_cache p = None
  /\ wf_tier c = true /\ wf_tier p = true.

(** No key is resident in a tier and in its parent at once. *)
Definition disjoint_tiers (c : Cache) : Prop :=
  forall p k, _parent_cache c = Some p ->
    dict_get k (_item_dict c) <> None -> dict_get k (_item_dict p) = None.

(** What an operation keeps of a two-tier chain [c] over [p]: the result
    is again a two-tier chain, over some [p']; neither tier changes its
    store or its [max_size]; [_size] does not gain on the sizes in the
    index, in either tier; and no key becomes resident in both tiers. *)
Definition kept_two (c p c' p' : Cache) : Prop :=
  two_tier c' p'
  /\ _store c' = _store c /\ _store p' = _store p
  /\ _max_size c' = _max_size c /\ _max_size p' = _max_size p
  /\ drift c <= drift c' /\ drift p <= drift p'
  /\ (disjoint_tiers c -> disjoint_tiers c').

(** ** Specification-level views of the operations *)

(** A list is in ascending order of a score. *)
Definition ascending {A} (f : A -> Q) (l : list A) : Prop :=
  forall i j x y, (i < j)%nat -> l !! i = Some x -> l !! j = Some y -> f x <= f y.

(** What removing the resident key [k], bound to item [r], leaves of a
    tier: [_remove_item] followed by [Item.discard]. *)
Definition evict (c : Cache) (k : Key) (r : ref) : Cache :=
  set_item
    (set_size (set_index c (dict_del k (_item_dict c))
                         (remove_first r (_item_list c)))
              (_size c - stored_size (item_at (heap c) r)))
    r Item_new.

(** The world after the store discarded the value of [k]. *)
Definition discard_world (s : CacheStore) (k : Key) (w : World) : World :=
  match s with
  | MemoryCacheStore => w
  | FileCacheStore d e => set_fs w (delete (_key_to_path d e k) (fs w))
  end.

(** The part of [remove_value] that acts on the tier itself. *)
Definition remove_own (c : Cache) (k : Key) (w : World)
  : result (Cache * World) :=
  match dict_get k (_item_dict c) with
  | Some item =>
      c2 ← _remove_item c item;
      '(it', w2) ← Item_discard (_store c2) k (item_at (heap c2) item) w;
      Ok (set_item c2 item it', w2)
  | None => Ok (c, w)
  end.

(** The items whose keys [trim_select] returns. *)
Fixpoint trim_select_refs (h : list Item) (l : list ref)
    (size extra_size max_size : Q) : list ref :=
  match l with
  | [] => []
  | item :: l' =>
      if Qlt_bool max_size (size + extra_size) then
        item :: trim_select_refs h l' (size - stored_size (item_at h item))
                                 extra_size max_size
      else trim_select_refs h l' size extra_size max_size
  end.

Definition trim_refs (c : Cache) (extra_size : Q) : list ref :=
  trim_select_refs (heap c) (sorted_items c) (_size c) extra_size
                   (_max_size c).

(** The policy score of an item of a cache. *)
Definition score (c : Cache) (r : ref) : Q := _policy c (item_at (heap c) r).

(** The entries of a list whose policy score equals [q], in list order. *)
Definition same_score (c : Cache) (q : Q) (l : list ref) : list ref :=
  List.filter (fun r => Qeq_bool (score c r) q) l.

Definition evict_key (c : Cache) (k : Key) : Cache :=
  match dict_get k (_item_dict c) with
  | Some r => evict c k r
  | None => c
  end.

Definition discard_key_world (c : Cache) (k : Key) (w : World) : World :=
  match dict_get k (_item_dict c) with
  | Some _ => discard_world (_store c) k w
  | None => w
  end.

Fixpoint evict_keys (c : Cache) (w : World) (ks : list Key) : Cache * World :=
  match ks with
  | [] => (c, w)
  | k :: ks' => evict_keys (evict_key c k) (discard_key_world c k w) ks'
  end.

(** The item [put_value] stores into: the resident item of the key, or a
    fresh one; and the tier before the new value is stored. *)
Definition put_ref (c : Cache) (k : Key) : ref :=
  match dict_get k (_item_dict c) with
  | Some r => r
  | None => length (heap c)
  end.

Definition put_prepare (c : Cache) (k : Key) : Cache :=
  match dict_get k (_item_dict c) with
  | Some r => evict c k r
  | None => (alloc_item c).1
  end.

(** The claim that trimming evicts higher-scored items first: of two
    evicted items, the one with the higher policy score comes earlier in
    the eviction order. *)
Definition evicts_higher_score_first (c : Cache) (extra_size : Q) : Prop :=
  forall i j ri rj,
    trim_refs c extra_size !! i = Some ri ->
    trim_refs c extra_size !! j = Some rj ->
    score c rj < score c ri -> (i < j)%nat.

(** ** Example oracles and states *)

(** Object sizes as a 64-bit CPython reports them. *)
Definition ex_getsizeof (v : value) : N :=
  match v with
  | VNone => 16
  | VInt _ => 28
  | VStr s => 49 + N.of_nat (String.length s)
  | VBytes b => 33 + N.of_nat (length b)
  | _ => 48
  end%N.

(** A clock that advances by one unit per reading. *)
Definition ex_clock (n : nat) : Q := inject_Z (Z.of_nat n).

Definition ex_world : World := mkWorld 0 ∅.

Definition zeros (n : nat) : list byte := replicate n x00.

(** [Cache(MemoryCacheStore(), capacity=100, threshold=0.5)] *)
Definition ex_cache : Cache :=
  Cache_new MemoryCacheStore 100 (1#2) POLICY_LRU None.

(** The same engine over a parent tier of capacity 1000. *)
Definition ex_parent : Cache :=
  Cache_new MemoryCacheStore 1000 (3#4) POLICY_LRU None.

Definition ex_child : Cache :=
  Cache_new MemoryCacheStore 100 (1#2) POLICY_LRU (Some ex_parent).

(** A single tier holding two 30-unit entries, above its [max_size] of 50. *)
Definition ex_item (k : Key) (v : value) (sz t : Q) : Item :=
  mkItem k (Some (SMem k v)) sz 0 t 1.

Definition ex_over : Cache :=
  mkCache MemoryCacheStore 100 (1#2) POLICY_LRU None 60 50
          [(KStr "a", 0%nat); (KStr "b", 1%nat)] [0%nat; 1%nat]
          [ex_item (KStr "a") (VMemview (zeros 30)) 30 0;
           ex_item (KStr "b") (VMemview (zeros 30)) 30 1].

(** The child tier after [put_value('a', 'x')] and [put_value('b', 'y')]:
    each string takes 50 units, so the second put trims the child and
    demotes ['a'] into the parent. *)
Definition ex_demoted : result (Cache * World) :=
  '(c1, w1) ← put_value ex_getsizeof ex_clock 10 ex_child (KStr "a")
                (VStr "x") ex_world;
  put_value ex_getsizeof ex_clock 10 c1 (KStr "b") (VStr "y") w1.

(** The single tier after [put_value('a', memoryview(bytes(20)))] and
    [put_value('b', memoryview(bytes(20)))]: the two entries take 40 of the
    50 units, so no trim has run and both are resident. *)
Definition ex_twenty : result (Cache * World) :=
  '(c1, w1) ← put_value ex_getsizeof ex_clock 10 ex_cache (KStr "a")
                (VMemview (zeros 20)) ex_world;
  put_value ex_getsizeof ex_clock 10 c1 (KStr "b") (VMemview (zeros 20)) w1.

(** The child tier holding the falsy value [0] under the key ['a']. *)
Definition ex_falsy : Cache * World :=
  match put_value ex_getsizeof ex_clock 10 ex_child (KStr "a") (VInt 0)
                  ex_world with
  | Ok cw => cw
  | Raise _ => (ex_child, ex_world)
  end.

Definition ok_or {A : Type} (r : result A) (a : A) : A :=
  match r with Ok x => x | Raise _ => a end.

(** The single tier after [put_value('a', <30 bytes>)]. *)
Definition ex_put_a : Cache * World :=
  ok_or (put_value ex_getsizeof ex_clock 10 ex_cache (KStr "a")
                   (VMemview (zeros 30)) ex_world)
        (ex_cache, ex_world).

(** A sequence of calls, on the single tier and on the two-tier chain. *)
Definition ex_ops : list Op :=
  [OpPut (KStr "a") (VMemview (zeros 30));
   OpPut (KStr "b") (VMemview (zeros 30));
   OpGet (KStr "b"); OpTrim 0; OpRemove (KStr "c");
   OpPut (KStr "c") (VStr "x"); OpClear false].

Definition ex_after_ops : Cache * World :=
  ok_or (run_ops ex_getsizeof ex_clock 10 ex_ops ex_cache ex_world)
        (ex_cache, ex_world).

Definition ex_two_after_ops : Cache * World :=
  ok_or (run_ops ex_getsizeof ex_clock 10 ex_ops ex_child ex_world)
        (ex_child, ex_world).

(** The child tier holding the truthy value ['x'] under the key ['a']. *)
Definition ex_truthy : Cache * World :=
  ok_or (put_value ex_getsizeof ex_clock 10 ex_child (KStr "a") (VStr "x")
                   ex_world)
        (ex_child, ex_world).

Definition parent_of (c : Cache) : Cache :=
  match _parent_cache c with Some p => p | None => c end.

(** The chain in which ['a'] has been demoted to the parent, and what the
    parent's [get_value('a')] returns there. *)
Definition ex_demoted_state : Cache * World :=
  ok_or ex_demoted (ex_child, ex_world).

Definition ex_parent_read : value * Cache * World :=
  ok_or (get_value ex_getsizeof ex_clock 9 (parent_of (fst ex_demoted_state))
                   (KStr "a") (snd ex_demoted_state))
        (VNone, ex_parent, ex_world).

(** The single tier holding the two 20-unit entries. *)
Definition ex_twenty_state : Cache * World :=
  ok_or ex_twenty (ex_cache, ex_world).

(** A file store, and a disk that holds the file of the key ['k1']. *)
Definition ex_file_store : CacheStore := FileCacheStore "/tmp/cache" ".bin".

Definition ex_hello : list byte := [x68; x65; x6c; x6c; x6f].

Definition ex_file_world : World :=
  mkWorld 0 {[ "/tmp/cache/k1.bin" := ex_hello ]}.

(** * Properties *)

Lemma Qlt_bool_true x y : x < y -> Qlt_bool x y = true.
Proof.
  intros H. unfold Qlt_bool. destruct (Qle_bool y x) eqn:E; [|done].
  apply Qle_bool_iff in E. lra.
Qed.

Lemma Qlt_bool_false x y : y <= x -> Qlt_bool x y = false.
Proof.
  intros H. unfold Qlt_bool. apply Qle_bool_iff in H. by rewrite H.
Qed.

Lemma Qlt_bool_iff x y : Qlt_bool x y = true <-> x < y.
Proof.
  split; [|apply Qlt_bool_true].
  unfold Qlt_bool. destruct (Qle_bool y x) eqn:E; [done|]. intros _.
  destruct (Qlt_le_dec x y) as [?|Hle]; [done|].
  apply Qle_bool_iff in Hle. congruence.
Qed.

(** dict *)
Lemma dict_get_Some k r (d : dict) : dict_get k d = Some r -> (k, r) ∈ d.
Proof.
  induction d as [|[k' r'] d IH]; simpl; [done|].
  case_decide; intros Hg; simplify_eq; [left | right; auto].
Qed.

Lemma dict_get_None k (d : dict) : dict_get k d = None <-> k ∉ d.*1.
Proof.
  induction d as [|[k' r'] d IH]; simpl.
  - split; [intros _; apply not_elem_of_nil | done].
  - case_decide; subst.
    + split; [done | intros Hg; exfalso; apply Hg; left].
    + rewrite IH, not_elem_of_cons. split; [intros; split; [congruence|done] | tauto].
Qed.

Lemma dict_get_elem k r (d : dict) :
  NoDup d.*1 -> (k, r) ∈ d -> dict_get k d = Some r.
Proof.
  induction d as [|[k' r'] d IH]; simpl; intros Hnd Hin.
  - by apply elem_of_nil in Hin.
  - apply NoDup_cons in Hnd as [Hk Hnd].
    apply elem_of_cons in Hin as [Heq|Hin]; simplify_eq.
    + by rewrite decide_True.
    + rewrite decide_False; [auto|].
      intros ->. apply Hk. apply (list_elem_of_fmap_2 fst) in Hin. done.
Qed.

Lemma dict_del_elem k (d : dict) e : e ∈ dict_del k d -> e ∈ d.
Proof.
  induction d as [|[k' r'] d IH]; simpl; [done|].
  case_decide; intros Hg; [by right|].
  apply elem_of_cons in Hg as [->|Hg]; [left | right; auto].
Qed.

Lemma dict_del_keys_sub k (d : dict) k' : k' ∈ (dict_del k d).*1 -> k' ∈ d.*1.
Proof.
  intros Hg. apply list_elem_of_fmap in Hg as [e [-> He]].
  apply list_elem_of_fmap_2. by eapply dict_del_elem.
Qed.

Lemma dict_del_NoDup k (d : dict) : NoDup d.*1 -> NoDup (dict_del k d).*1.
Proof.
  induction d as [|[k' r'] d IH]; simpl; [done|].
  intros [Hk Hnd]%NoDup_cons. case_decide; [done|].
  simpl. apply NoDup_cons. split; [|auto].
  intros H'. apply Hk. by eapply dict_del_keys_sub.
Qed.

Lemma dict_get_del_eq k (d : dict) :
  NoDup d.*1 -> dict_get k (dict_del k d) = None.
Proof.
  induction d as [|[k' r'] d IH]; simpl; [done|].
  intros [Hk Hnd]%NoDup_cons. case_decide; subst.
  - by apply dict_get_None.
  - simpl. rewrite decide_False by done. auto.
Qed.

Lemma dict_get_del_ne k k' (d : dict) :
  k ≠ k' -> dict_get k' (dict_del k d) = dict_get k' d.
Proof.
  intros Hne. induction d as [|[k0 r0] d IH]; simpl; [done|].
  case_decide; subst.
  - by rewrite decide_False.
  - simpl. case_decide; auto.
Qed.

Lemma dict_del_absent k (d : dict) : dict_get k d = None -> dict_del k d = d.
Proof.
  induction d as [|[k' r'] d IH]; simpl; [done|].
  case_decide; [done|]. intros H'. by rewrite IH.
Qed.

Lemma dict_del_perm k r (d : dict) :
  dict_get k d = Some r -> d.*2 ≡ₚ r :: (dict_del k d).*2.
Proof.
  induction d as [|[k' r'] d IH]; simpl; [done|].
  case_decide; intros H'; simplify_eq; [done|].
  simpl. rewrite (IH H'). apply Permutation_swap.
Qed.

Lemma dict_get_set_eq k r (d : dict) : dict_get k (dict_set k r d) = Some r.
Proof.
  induction d as [|[k' r'] d IH]; simpl.
  - by rewrite decide_True.
  - case_decide; simpl; [by rewrite decide_True | by rewrite decide_False].
Qed.

Lemma dict_get_set_ne k k' r (d : dict) :
  k ≠ k' -> dict_get k' (dict_set k r d) = dict_get k' d.
Proof.
  intros Hne. induction d as [|[k0 r0] d IH]; simpl.
  - by rewrite decide_False.
  - case_decide; subst; simpl.
    + by rewrite !decide_False.
    + case_decide; auto.
Qed.

Lemma dict_set_absent k r (d : dict) :
  dict_get k d = None -> dict_set k r d = (d ++ [(k, r)])%list.
Proof.
  induction d as [|[k' r'] d IH]; simpl; [done|].
  case_decide; [done|]. intros H'. by rewrite IH.
Qed.

(** remove_first *)
Lemma remove_first_perm r (l : list ref) : r ∈ l -> l ≡ₚ r :: remove_first r l.
Proof.
  induction l as [|r' l IH]; simpl; intros Hin.
  - by apply elem_of_nil in Hin.
  - case_decide; subst; [done|].
    apply elem_of_cons in Hin as [?|Hin]; [congruence|].
    rewrite (IH Hin) at 1. apply Permutation_swap.
Qed.

(** sort *)
Lemma insert_by_perm {A} (f : A -> Q) x l : insert_by f x l ≡ₚ x :: l.
Proof.
  induction l as [|y l IH]; simpl; [done|].
  destruct (Qle_bool (f x) (f y)); [done|].
  rewrite IH. apply Permutation_swap.
Qed.

Lemma sort_by_perm {A} (f : A -> Q) l : sort_by f l ≡ₚ l.
Proof.
  induction l as [|x l IH]; simpl; [done|].
  unfold sort_by in *. simpl. by rewrite insert_by_perm, IH.
Qed.

Lemma ascending_cons {A} (f : A -> Q) x l :
  ascending f (x :: l) <-> (forall y, y ∈ l -> f x <= f y) /\ ascending f l.
Proof.
  split.
  - intros H. split.
    + intros y [j Hj]%list_elem_of_lookup. apply (H 0%nat (S j)); [lia|done..].
    + intros i j a b Hij Hi Hj. apply (H (S i) (S j)); [lia|done..].
  - intros [H1 H2] i j a b Hij Hi Hj. destruct j as [|j]; [lia|].
    destruct i as [|i]; simpl in *; simplify_eq.
    + apply H1. by eapply list_elem_of_lookup_2.
    + apply (H2 i j); [lia|done..].
Qed.

Lemma insert_by_ascending {A} (f : A -> Q) x l :
  ascending f l -> ascending f (insert_by f x l).
Proof.
  induction l as [|y l IH]; simpl; intros Hl.
  - apply ascending_cons. split; [|done]. intros y Hy. by apply elem_of_nil in Hy.
  - destruct (Qle_bool (f x) (f y)) eqn:E.
    + apply Qle_bool_iff in E. apply ascending_cons. split; [|done].
      apply ascending_cons in Hl as [Hy _].
      intros z [->|Hz]%elem_of_cons; [done|]. specialize (Hy z Hz). lra.
    + assert (f y <= f x).
      { destruct (Qlt_le_dec (f y) (f x)) as [?|Hle]; [lra|].
        apply Qle_bool_iff in Hle. congruence. }
      apply ascending_cons in Hl as [Hy Hl]. apply ascending_cons. split; [|auto].
      intros z Hz. rewrite insert_by_perm in Hz.
      apply elem_of_cons in Hz as [->|Hz]; auto.
Qed.

Lemma sort_by_ascending {A} (f : A -> Q) l : ascending f (sort_by f l).
Proof.
  induction l as [|x l IH]; unfold sort_by in *; simpl.
  - intros i j a b _ Hi. by rewrite lookup_nil in Hi.
  - by apply insert_by_ascending.
Qed.

Lemma insert_by_filter {A} (f : A -> Q) (q : Q) x l :
  List.filter (fun y => Qeq_bool (f y) q) (insert_by f x l)
  = List.filter (fun y => Qeq_bool (f y) q) (x :: l).
Proof.
  induction l as [|y l IH]; [done|].
  cbn [insert_by]. destruct (Qle_bool (f x) (f y)) eqn:E; [done|].
  cbn [List.filter] in *. rewrite IH.
  destruct (Qeq_bool (f x) q) eqn:Ex, (Qeq_bool (f y) q) eqn:Ey; try done.
  apply Qeq_bool_iff in Ex, Ey.
  assert (Qle_bool (f x) (f y) = true); [|congruence].
  apply Qle_bool_iff. lra.
Qed.

Lemma sort_by_stable {A} (f : A -> Q) (q : Q) l :
  List.filter (fun y => Qeq_bool (f y) q) (sort_by f l)
  = List.filter (fun y => Qeq_bool (f y) q) l.
Proof.
  induction l as [|x l IH]; [done|].
  unfold sort_by in *. cbn [foldr]. rewrite insert_by_filter.
  cbn [List.filter]. by rewrite IH.
Qed.

Lemma filter_lookup_before {A} (P : A -> bool) l i j x y :
  (i < j)%nat -> List.filter P l !! i = Some x ->
  List.filter P l !! j = Some y ->
  exists i' j', (i' < j')%nat /\ l !! i' = Some x /\ l !! j' = Some y.
Proof.
  revert i j. induction l as [|a l IH]; intros i j Hij Hi Hj; [done|].
  cbn [List.filter] in Hi, Hj. destruct (P a).
  - destruct i as [|i].
    + destruct j as [|j]; [lia|]. simpl in Hi, Hj. injection Hi as ->.
      assert (exists j', l !! j' = Some y) as [j' Hj'].
      { apply list_elem_of_lookup_1.
        apply list_elem_of_lookup_2 in Hj.
        apply list_elem_of_In, List.filter_In in Hj as [Hj _].
        by apply list_elem_of_In. }
      exists 0%nat, (S j'). split; [lia|done].
    + destruct j as [|j]; [lia|]. simpl in Hi, Hj.
      destruct (IH i j) as (i' & j' & ? & ? & ?); [lia|done|done|].
      exists (S i'), (S j'). split; [lia|done].
  - destruct (IH i j) as (i' & j' & ? & ? & ?); [lia|done|done|].
    exists (S i'), (S j'). split; [lia|done].
Qed.

Lemma lookup_filter_before {A} (P : A -> bool) l i j x y :
  (i < j)%nat -> l !! i = Some x -> l !! j = Some y ->
  P x = true -> P y = true ->
  exists i' j', (i' < j')%nat /\ List.filter P l !! i' = Some x
                /\ List.filter P l !! j' = Some y.
Proof.
  revert i j. induction l as [|a l IH]; intros i j Hij Hi Hj Hx Hy; [done|].
  destruct i as [|i].
  - destruct j as [|j]; [lia|]. simpl in Hi, Hj. injection Hi as ->.
    cbn [List.filter]. rewrite Hx.
    assert (exists j', List.filter P l !! j' = Some y) as [j' Hj'].
    { apply list_elem_of_lookup_1, list_elem_of_In, List.filter_In.
      split; [|done]. apply list_elem_of_In. by eapply list_elem_of_lookup_2. }
    exists 0%nat, (S j'). split; [lia|done].
  - destruct j as [|j]; [lia|]. simpl in Hi, Hj.
    destruct (IH i j) as (i' & j' & ? & ? & ?); [lia|done..|].
    cbn [List.filter]. destruct (P a).
    + exists (S i'), (S j'). split; [lia|done].
    + by exists i', j'.
Qed.

Lemma sort_by_keeps_order {A} (f : A -> Q) l i j x y :
  (i < j)%nat -> sort_by f l !! i = Some x -> sort_by f l !! j = Some y ->
  f x == f y ->
  exists i' j', (i' < j')%nat /\ l !! i' = Some x /\ l !! j' = Some y.
Proof.
  intros Hij Hi Hj Heq.
  destruct (lookup_filter_before (fun z => Qeq_bool (f z) (f x)) (sort_by f l) i j x y)
    as (i1 & j1 & H1 & Hi1 & Hj1); try done.
  - apply Qeq_bool_iff. lra.
  - apply Qeq_bool_iff. lra.
  - rewrite sort_by_stable in Hi1, Hj1.
    by eapply filter_lookup_before.
Qed.

Lemma wf_tier_iff c :
  wf_tier c = true <->
  NoDup (_item_dict c).*1
  /\ (forall e, e ∈ _item_dict c -> entry_okb c e = true)
  /\ _item_list c ≡ₚ (_item_dict c).*2.
Proof.
  unfold wf_tier. rewrite !andb_true_iff, !bool_decide_eq_true.
  rewrite forallb_forall. setoid_rewrite <- list_elem_of_In. tauto.
Qed.

Lemma entry_okb_inv c k r :
  entry_okb c (k, r) = true ->
  exists it, heap c !! r = Some it /\ key it = k
             /\ stored_okb (_store c) k (stored_value it) = true
             /\ 0 <= stored_size it.
Proof.
  unfold entry_okb; simpl. destruct (heap c !! r) as [it|]; [|done].
  rewrite !andb_true_iff, bool_decide_eq_true, Qle_bool_iff.
  intros [[? ?] ?]. eauto.
Qed.

Lemma entry_okb_intro c k r it :
  heap c !! r = Some it -> key it = k ->
  stored_okb (_store c) k (stored_value it) = true ->
  0 <= stored_size it -> entry_okb c (k, r) = true.
Proof.
  unfold entry_okb; simpl. intros -> ? ? ?.
  rewrite !andb_true_iff, bool_decide_eq_true, Qle_bool_iff. done.
Qed.

Lemma item_at_lookup h r it : h !! r = Some it -> item_at h r = it.
Proof. unfold item_at. by intros ->. Qed.

Lemma wf_entry c k r :
  wf_tier c = true -> dict_get k (_item_dict c) = Some r ->
  key (item_at (heap c) r) = k
  /\ stored_okb (_store c) k (stored_value (item_at (heap c) r)) = true
  /\ 0 <= stored_size (item_at (heap c) r)
  /\ (r < length (heap c))%nat
  /\ r ∈ _item_list c.
Proof.
  intros (Hnd & Hent & Hperm)%wf_tier_iff Hget.
  apply dict_get_Some in Hget.
  destruct (entry_okb_inv _ _ _ (Hent _ Hget)) as (it & Hit & ? & ? & ?).
  rewrite (item_at_lookup _ _ _ Hit). split_and!; try done.
  - by eapply lookup_lt_Some.
  - rewrite Hperm. by apply (list_elem_of_fmap_2 snd) in Hget.
Qed.

(** distinct keys have distinct items *)
Lemma wf_ref_inj c k1 k2 r :
  wf_tier c = true -> (k1, r) ∈ _item_dict c -> (k2, r) ∈ _item_dict c ->
  k1 = k2.
Proof.
  intros (Hnd & Hent & Hperm)%wf_tier_iff H1 H2.
  destruct (entry_okb_inv _ _ _ (Hent _ H1)) as (it & Hit & ? & _).
  destruct (entry_okb_inv _ _ _ (Hent _ H2)) as (it' & Hit' & ? & _).
  congruence.
Qed.

Lemma discard_value_world s k sv w :
  stored_okb s k sv = true ->
  exists sv', discard_value s k sv w = Ok (sv', discard_world s k w).
Proof.
  destruct s as [|d e]; simpl.
  - destruct sv as [[k0 v|p]|]; try done. intros ->%bool_decide_eq_true.
    rewrite decide_False by (intros Hn; by apply Hn). eauto.
  - intros _. unfold os_remove.
    destruct (fs w !! _key_to_path d e k) eqn:E; [eauto|].
    exists sv. rewrite delete_id by done. by destruct w.
Qed.

Lemma remove_own_resident c k r w :
  wf_tier c = true -> dict_get k (_item_dict c) = Some r ->
  remove_own c k w = Ok (evict c k r, discard_world (_store c) k w).
Proof.
  intros Hwf Hget. destruct (wf_entry _ _ _ Hwf Hget) as (Hk & Hsv & _ & _ & Hin).
  unfold remove_own, _remove_item, dict_pop, list_remove_item.
  rewrite Hget, Hk, Hget. simpl.
  rewrite bool_decide_eq_true_2 by done. simpl.
  unfold Item_discard.
  destruct (discard_value_world _ k _ w Hsv) as [sv' ->]. done.
Qed.

Lemma remove_own_absent c k w :
  dict_get k (_item_dict c) = None -> remove_own c k w = Ok (c, w).
Proof. unfold remove_own. by intros ->. Qed.

Lemma evict_wf c k r :
  wf_tier c = true -> dict_get k (_item_dict c) = Some r ->
  wf_tier (evict c k r) = true.
Proof.
  intros Hwf Hget. pose proof Hwf as (Hnd & Hent & Hperm)%wf_tier_iff.
  destruct (wf_entry _ _ _ Hwf Hget) as (Hk & Hsv & _ & _ & Hin).
  apply wf_tier_iff. simpl. split_and!.
  - by apply dict_del_NoDup.
  - intros [k' r'] He. pose proof (dict_del_elem _ _ _ He) as He'.
    destruct (entry_okb_inv _ _ _ (Hent _ He')) as (it & Hit & ? & ? & ?).
    assert (r' ≠ r).
    { intros ->. assert (k' = k) as ->.
      { eapply wf_ref_inj; eauto using dict_get_Some. }
      apply (list_elem_of_fmap_2 fst) in He. simpl in He.
      by apply (dict_get_None k (dict_del k (_item_dict c)));
        [apply dict_get_del_eq|]. }
    eapply entry_okb_intro; simpl; eauto.
    by rewrite list_lookup_insert_ne.
  - apply (Permutation_cons_inv (a := r)).
    rewrite <- remove_first_perm by done.
    rewrite <- dict_del_perm by done. done.
Qed.

Lemma tiers_unfold c :
  tiers c = c :: match _parent_cache c with Some p => tiers p | None => [] end.
Proof. by destruct c. Qed.

Lemma wf_unfold c :
  wf c = wf_tier c && match _parent_cache c with Some p => wf p | None => true end.
Proof. unfold wf. rewrite tiers_unfold. simpl. by destruct (_parent_cache c). Qed.

Lemma absent_unfold k c :
  absent k c <->
  dict_get k (_item_dict c) = None
  /\ match _parent_cache c with Some p => absent k p | None => True end.
Proof.
  unfold absent. rewrite tiers_unfold, Forall_cons.
  destruct (_parent_cache c); [done|]. rewrite Forall_nil. tauto.
Qed.

Lemma set_parent_id c p : _parent_cache c = Some p -> set_parent c p = c.
Proof. destruct c; simpl. by intros ->. Qed.

Lemma remove_value_root d c k w :
  _parent_cache c = None -> remove_value (S d) c k w = remove_own c k w.
Proof. intros Hp. simpl. unfold has_parent. by rewrite Hp. Qed.

Lemma remove_value_child d c p k w :
  _parent_cache c = Some p ->
  remove_value (S d) c k w =
  '(p', w') ← remove_value d p k w; remove_own (set_parent c p') k w'.
Proof.
  intros Hp. simpl. unfold has_parent, on_parent. rewrite Hp.
  destruct (remove_value d p k w) as [[p' w']|e]; done.
Qed.

Arguments get_value : simpl never.
Arguments put_value : simpl never.
Arguments remove_value : simpl never.
Arguments _add_item : simpl never.
Arguments trim : simpl never.
Arguments clear : simpl never.

Lemma remove_value_absent d c k w :
  absent k c -> (length (tiers c) <= d)%nat -> remove_value d c k w = Ok (c, w).
Proof.
  revert c w. induction d as [|d IH]; intros c w Ha Hlen.
  - rewrite tiers_unfold in Hlen. simpl in Hlen. lia.
  - apply absent_unfold in Ha as [Hown Hpar].
    rewrite tiers_unfold in Hlen. simpl in Hlen.
    destruct (_parent_cache c) as [p|] eqn:Hp.
    + rewrite (remove_value_child _ _ p) by done.
      rewrite IH by (done || lia). simpl.
      rewrite set_parent_id by done. by apply remove_own_absent.
    + rewrite remove_value_root by done. by apply remove_own_absent.
Qed.

Lemma remove_own_total c k w :
  wf_tier c = true ->
  exists c1 w1, remove_own c k w = Ok (c1, w1)
    /\ dict_get k (_item_dict c1) = None /\ wf_tier c1 = true
    /\ _parent_cache c1 = _parent_cache c.
Proof.
  intros Hwt. destruct (dict_get k (_item_dict c)) as [r|] eqn:Hget.
  - rewrite (remove_own_resident _ _ r) by done.
    eexists _, _. split; [done|]. rewrite evict_wf by done. simpl.
    split_and!; try done.
    apply dict_get_del_eq. by apply wf_tier_iff in Hwt as [? _].
  - rewrite remove_own_absent by done. eauto 10.
Qed.

Lemma remove_value_total d c k w :
  wf c = true -> (length (tiers c) <= d)%nat ->
  exists c1 w1, remove_value d c k w = Ok (c1, w1)
    /\ absent k c1 /\ wf c1 = true /\ length (tiers c1) = length (tiers c).
Proof.
  revert c w. induction d as [|d IH]; intros c w Hwf Hlen.
  - rewrite tiers_unfold in Hlen. simpl in Hlen. lia.
  - rewrite wf_unfold in Hwf. apply andb_true_iff in Hwf as [Hwt Hwp].
    rewrite tiers_unfold in Hlen. simpl in Hlen.
    destruct (_parent_cache c) as [p|] eqn:Hp.
    + rewrite (remove_value_child _ _ p) by done.
      destruct (IH p w Hwp ltac:(lia)) as (p1 & w1 & -> & Hab & Hwf1 & Hl1).
      simpl.
      destruct (remove_own_total (set_parent c p1) k w1 Hwt)
        as (c1 & w2 & -> & Hget & Hwt1 & Hp1).
      exists c1, w2. split; [done|].
      rewrite absent_unfold, wf_unfold, (tiers_unfold c1), (tiers_unfold c),
        Hp1, Hp, Hwt1. simpl. split_and!; auto.
    + rewrite remove_value_root by done.
      destruct (remove_own_total c k w Hwt) as (c1 & w2 & -> & Hget & Hwt1 & Hp1).
      exists c1, w2. split; [done|].
      rewrite absent_unfold, wf_unfold, (tiers_unfold c1), (tiers_unfold c),
        Hp1, Hp, Hwt1. simpl. split_and!; auto.
Qed.

(** C7. On a well-formed chain, [remove_value(key)] returns, and calling
    it again returns the same state unchanged; removing a key that is in no
    tier's index changes nothing. *)
Theorem remove_value_idempotent d c k w :
  wf c = true -> (length (tiers c) <= d)%nat ->
  (exists c1 w1, remove_value d c k w = Ok (c1, w1)
                 /\ remove_value d c1 k w1 = Ok (c1, w1))
  /\ (absent k c -> remove_value d c k w = Ok (c, w)).
Proof.
  intros Hwf Hlen. split.
  - destruct (remove_value_total d c k w Hwf Hlen) as (c1 & w1 & H1 & Ha & _ & Hl).
    exists c1, w1. split; [done|]. apply remove_value_absent; [done|lia].
  - intros Ha. by apply remove_value_absent.
Qed.

(** *** Single-tier trimming *)

Lemma trim_select_keys h l size extra mx :
  trim_select h l size extra mx
  = (fun r => key (item_at h r)) <$> trim_select_refs h l size extra mx.
Proof.
  revert size. induction l as [|r l IH]; intros size; simpl; [done|].
  destruct (Qlt_bool mx (size + extra)); simpl; by rewrite IH.
Qed.

Lemma trim_select_refs_stop h l size extra mx :
  Qlt_bool mx (size + extra) = false -> trim_select_refs h l size extra mx = [].
Proof. intros E. induction l as [|r l IH]; simpl; [done|]. by rewrite E. Qed.

Lemma trim_select_refs_prefix h l size extra mx :
  exists n, trim_select_refs h l size extra mx = take n l.
Proof.
  revert size. induction l as [|r l IH]; intros size; simpl.
  - by exists 0%nat.
  - destruct (Qlt_bool mx (size + extra)) eqn:E.
    + destruct (IH (size - stored_size (item_at h r))) as [n ->]. by exists (S n).
    + exists 0%nat. by rewrite trim_select_refs_stop.
Qed.

Lemma sum_sizes_nonneg h l :
  (forall r, r ∈ l -> 0 <= stored_size (item_at h r)) -> 0 <= sum_sizes h l.
Proof.
  induction l as [|r l IH]; simpl; intros H; [lra|].
  assert (0 <= stored_size (item_at h r)) by (apply H; left).
  assert (0 <= sum_sizes h l) by (apply IH; intros; apply H; by right).
  unfold sum_sizes in *. lra.
Qed.

Lemma sum_sizes_perm h l1 l2 : l1 ≡ₚ l2 -> sum_sizes h l1 == sum_sizes h l2.
Proof.
  induction 1; unfold sum_sizes in *; simpl; lra.
Qed.

Lemma sum_sizes_ext h1 h2 l :
  (forall r, r ∈ l -> item_at h1 r = item_at h2 r) ->
  sum_sizes h1 l = sum_sizes h2 l.
Proof.
  induction l as [|r l IH]; simpl; intros H; [done|].
  rewrite (H r) by left. unfold sum_sizes in *. rewrite IH; [done|].
  intros; apply H; by right.
Qed.

Lemma trim_select_refs_spec h l size extra mx :
  (forall r, r ∈ l -> 0 <= stored_size (item_at h r)) ->
  let sel := trim_select_refs h l size extra mx in
  size - sum_sizes h sel + extra <= mx \/ sel = l.
Proof.
  revert size. induction l as [|r l IH]; intros size Hpos; simpl; [by right|].
  destruct (Qlt_bool mx (size + extra)) eqn:E.
  - destruct (IH (size - stored_size (item_at h r))) as [Hle| ->].
    + intros; apply Hpos; by right.
    + left. unfold sum_sizes in *. simpl. lra.
    + by right.
  - left. rewrite trim_select_refs_stop by done.
    assert (~ mx < size + extra) by (rewrite <- Qlt_bool_iff; congruence).
    unfold sum_sizes; simpl. lra.
Qed.

Lemma wf_item c r :
  wf_tier c = true -> r ∈ _item_list c ->
  dict_get (key (item_at (heap c) r)) (_item_dict c) = Some r
  /\ 0 <= stored_size (item_at (heap c) r).
Proof.
  intros Hwf Hin. pose proof Hwf as (Hnd & Hent & Hperm)%wf_tier_iff.
  rewrite Hperm in Hin. apply list_elem_of_fmap in Hin as [[k r'] [-> He]].
  simpl. destruct (entry_okb_inv _ _ _ (Hent _ He)) as (it & Hit & <- & _ & ?).
  rewrite (item_at_lookup _ _ _ Hit). split; [|done].
  by apply dict_get_elem.
Qed.

Lemma evict_keys_fields c w ks :
  let c' := (evict_keys c w ks).1 in
  _store c' = _store c /\ _policy c' = _policy c
  /\ _parent_cache c' = _parent_cache c /\ _max_size c' = _max_size c
  /\ _capacity c' = _capacity c /\ _threshold c' = _threshold c.
Proof.
  revert c w. induction ks as [|k ks IH]; intros c w; simpl; [done|].
  destruct (IH (evict_key c k) (discard_key_world c k w)) as (-> & -> & -> & -> & -> & ->).
  unfold evict_key. by destruct (dict_get k (_item_dict c)).
Qed.

Lemma evict_key_wf c k : wf_tier c = true -> wf_tier (evict_key c k) = true.
Proof.
  intros Hwf. unfold evict_key.
  destruct (dict_get k (_item_dict c)) eqn:E; [by apply evict_wf | done].
Qed.

Lemma evict_keys_wf c w ks :
  wf_tier c = true -> wf_tier (evict_keys c w ks).1 = true.
Proof.
  revert c w. induction ks as [|k ks IH]; intros c w Hwf; simpl; [done|].
  apply IH. by apply evict_key_wf.
Qed.

Lemma evict_keys_size sel : forall c w,
  wf_tier c = true -> NoDup sel ->
  (forall r, r ∈ sel ->
     dict_get (key (item_at (heap c) r)) (_item_dict c) = Some r) ->
  _size (evict_keys c w ((fun r => key (item_at (heap c) r)) <$> sel)).1
  == _size c - sum_sizes (heap c) sel.
Proof.
  induction sel as [|r0 sel IH]; intros c w Hwf Hnd Hres; simpl.
  - unfold sum_sizes; simpl. lra.
  - apply NoDup_cons in Hnd as [Hr0 Hnd].
    assert (Hget0 := Hres r0 ltac:(left)).
    unfold evict_key at 1. rewrite Hget0.
    set (k0 := key (item_at (heap c) r0)) in *.
    set (c1 := evict c k0 r0).
    assert (Hsame : forall r, r ∈ sel -> item_at (heap c1) r = item_at (heap c) r).
    { intros r Hr. unfold item_at, c1; simpl.
      rewrite list_lookup_insert_ne; [done|]. intros ->. done. }
    assert (Hmap : (fun r => key (item_at (heap c) r)) <$> sel
                   = (fun r => key (item_at (heap c1) r)) <$> sel).
    { apply list_fmap_ext. intros i r Hr.
      rewrite Hsame; [done|]. by eapply list_elem_of_lookup_2. }
    change (list_fmap ref Key ?f sel) with (f <$> sel). rewrite Hmap.
    rewrite IH; [| by apply evict_wf | done |].
    + rewrite (sum_sizes_ext (heap c1) (heap c)) by done.
      unfold c1, sum_sizes; simpl. lra.
    + intros r Hr. rewrite Hsame by done. unfold c1; simpl.
      rewrite dict_get_del_ne; [by apply Hres; right|].
      intros Heq. assert (Hg := Hres r ltac:(by right)).
      rewrite <- Heq in Hg. fold k0 in Hget0. rewrite Hget0 in Hg.
      simplify_eq. done.
Qed.

Lemma remove_own_evict c k w :
  wf_tier c = true ->
  remove_own c k w = Ok (evict_key c k, discard_key_world c k w).
Proof.
  intros Hwf. unfold evict_key, discard_key_world.
  destruct (dict_get k (_item_dict c)) as [r|] eqn:E.
  - by apply remove_own_resident.
  - by apply remove_own_absent.
Qed.

Lemma evict_key_parent c k : _parent_cache (evict_key c k) = _parent_cache c.
Proof. unfold evict_key. by destruct (dict_get k (_item_dict c)). Qed.

Section Properties.
Context (getsizeof : value -> N) (clock : nat -> Q).

Lemma trim_unfold d c e w :
  trim getsizeof clock (S d) c e w =
  foldM (trim_body getsizeof clock d) (set_index c (_item_dict c) (sorted_items c), w)
        (trim_select (heap c) (sorted_items c) (_size c) e (_max_size c)).
Proof. reflexivity. Qed.

Lemma trim_loop_single d ks : forall c w,
  _parent_cache c = None -> wf_tier c = true ->
  foldM (trim_body getsizeof clock (S d)) (c, w) ks = Ok (evict_keys c w ks).
Proof.
  induction ks as [|k ks IH]; intros c w Hp Hwf; simpl; [done|].
  unfold has_parent. rewrite Hp.
  rewrite (remove_value_root d c k w Hp), remove_own_evict by done. simpl.
  apply IH; [by rewrite evict_key_parent | by apply evict_key_wf].
Qed.

Lemma sorted_wf c :
  wf_tier c = true ->
  wf_tier (set_index c (_item_dict c) (sorted_items c)) = true.
Proof.
  intros (Hnd & Hent & Hperm)%wf_tier_iff. apply wf_tier_iff. simpl.
  split_and!; try done. unfold sorted_items. by rewrite sort_by_perm.
Qed.

(** Single-tier [trim]: the result and its size. *)
Lemma trim_single d c e w :
  _parent_cache c = None -> wf_tier c = true ->
  let sel := trim_select_refs (heap c) (sorted_items c) (_size c) e (_max_size c) in
  let r := evict_keys (set_index c (_item_dict c) (sorted_items c)) w
                      ((fun r => key (item_at (heap c) r)) <$> sel) in
  trim getsizeof clock (S (S d)) c e w = Ok r
  /\ wf_tier r.1 = true
  /\ _size r.1 == _size c - sum_sizes (heap c) sel.
Proof.
  intros Hp Hwf sel r. pose proof (sorted_wf c Hwf) as Hwf1.
  rewrite trim_unfold, trim_select_keys.
  split_and!.
  - by apply trim_loop_single.
  - by apply evict_keys_wf.
  - unfold r.
    destruct (trim_select_refs_prefix (heap c) (sorted_items c) (_size c) e
                (_max_size c)) as [n Hn].
    assert (Hsub : forall x, x ∈ sel -> x ∈ _item_list c).
    { intros x Hx. unfold sel in Hx. rewrite Hn in Hx.
      apply elem_of_take in Hx as (i & Hx & _).
      apply list_elem_of_lookup_2 in Hx. unfold sorted_items in Hx.
      by rewrite sort_by_perm in Hx. }
    apply (evict_keys_size sel (set_index c (_item_dict c) (sorted_items c)) w);
      [done| |].
    + unfold sel. rewrite Hn. eapply sublist_NoDup; [|apply sublist_take].
      unfold sorted_items. rewrite sort_by_perm.
      apply wf_tier_iff in Hwf as (Hnd & Hent & ->).
      apply NoDup_fmap_2_strong; [|by eapply NoDup_fmap_1].
      intros [k1 r1] [k2 r2] H1 H2; simpl; intros <-. f_equal.
      destruct (entry_okb_inv _ _ _ (Hent _ H1)) as (it & Hit & ? & _).
      destruct (entry_okb_inv _ _ _ (Hent _ H2)) as (it' & Hit' & ? & _).
      congruence.
    + intros x Hx. simpl. by apply wf_item; [|apply Hsub].
Qed.

(** C2. Trimming a well-formed single-tier engine with no extra size
    returns, and leaves [_size] at most [_max_size]; the engine may start
    above [_max_size]. The state is well formed, its [_size] does not exceed
    the sizes in its index, and [_max_size] is not negative. *)
Theorem trim_single_bound d c w :
  _parent_cache c = None -> wf_tier c = true ->
  _size c <= index_size c -> 0 <= _max_size c ->
  exists c' w', trim getsizeof clock (S (S d)) c 0 w = Ok (c', w')
    /\ _size c' <= _max_size c' /\ wf_tier c' = true.
Proof.
  intros Hp Hwf Hsz Hmx.
  destruct (trim_single d c 0 w Hp Hwf) as (Htrim & Hwf' & Hsize).
  pose proof (evict_keys_fields (set_index c (_item_dict c) (sorted_items c)) w
    ((fun r => key (item_at (heap c) r)) <$>
       trim_select_refs (heap c) (sorted_items c) (_size c) 0 (_max_size c)))
    as (_ & _ & _ & Hmax & _).
  destruct (evict_keys _ _ _) as [c' w']. simpl in *.
  exists c', w'. split; [exact Htrim|]. split; [|done].
  rewrite Hsize, Hmax.
  destruct (trim_select_refs_spec (heap c) (sorted_items c) (_size c) 0 (_max_size c))
    as [Hle|Hall].
  - intros r Hr. unfold sorted_items in Hr. rewrite sort_by_perm in Hr.
    by apply wf_item.
  - lra.
  - rewrite Hall.
    assert (sum_sizes (heap c) (sorted_items c) == index_size c) as ->; [|lra].
    unfold index_size. apply sum_sizes_perm. unfold sorted_items.
    rewrite sort_by_perm. by apply wf_tier_iff in Hwf as (_ & _ & ->).
Qed.

Lemma compute_object_size_nonneg v : 0 <= _compute_object_size getsizeof v.
Proof.
  assert (Hz : forall z : Z, (0 <= z)%Z -> 0 <= inject_Z z).
  { intros z Hz. unfold Qle; simpl. lia. }
  destruct v; simpl; try (apply Hz; lia).
  assert (0 <= inject_Z (Z.of_N w)) by (apply Hz; lia).
  assert (0 <= inject_Z (Z.of_N h)) by (apply Hz; lia).
  assert (0 <= inject_Z (Z.of_N w) * inject_Z (Z.of_N h)) by (by apply Qmult_le_0_compat).
  repeat match goal with |- context [if ?b then _ else _] => destruct b end;
    apply Qmult_le_0_compat; try done.
Qed.

Lemma add_wf c k r :
  wf_tier c = true -> dict_get k (_item_dict c) = None ->
  entry_okb c (k, r) = true ->
  wf_tier (set_index c (dict_set k r (_item_dict c)) (_item_list c ++ [r])) = true.
Proof.
  intros (Hnd & Hent & Hperm)%wf_tier_iff Hget Hok.
  rewrite dict_set_absent by done. apply wf_tier_iff. simpl. split_and!.
  - rewrite fmap_app. apply NoDup_app. split_and!; [done| |apply NoDup_singleton].
    simpl. intros k' Hk' ->%list_elem_of_singleton. by apply dict_get_None in Hget.
  - intros e [He| ->%list_elem_of_singleton]%elem_of_app; [by apply Hent|done].
  - rewrite fmap_app. simpl. by rewrite Hperm.
Qed.

Lemma add_item_unfold d c item w :
  _add_item getsizeof clock (S d) c item w =
  let it := item_at (heap c) item in
  let c1 := set_index c (dict_set (key it) item (_item_dict c))
                      (_item_list c ++ [item])%list in
  '(c2, w2) ←
    (if Qlt_bool (_max_size c1) (_size c1 + stored_size it)
     then trim getsizeof clock d c1 (stored_size it) w
     else Ok (c1, w));
  Ok (set_size c2 (_size c2 + stored_size (item_at (heap c2) item)), w2).
Proof. reflexivity. Qed.

Lemma evict_keys_lookup ks : forall c w k r,
  wf_tier c = true ->
  dict_get k (_item_dict (evict_keys c w ks).1) = Some r ->
  dict_get k (_item_dict c) = Some r
  /\ item_at (heap (evict_keys c w ks).1) r = item_at (heap c) r
  /\ k ∉ ks.
Proof.
  induction ks as [|k0 ks IH]; intros c w k r Hwf Hget; simpl in *.
  - split_and!; [done..|apply not_elem_of_nil].
  - apply IH in Hget as (Hget & Hitem & Hnin); [|by apply evict_key_wf].
    rewrite Hitem. unfold evict_key in *.
    destruct (dict_get k0 (_item_dict c)) as [r0|] eqn:E0.
    + simpl in Hget.
      assert (k0 ≠ k).
      { intros ->. rewrite dict_get_del_eq in Hget; [done|].
        by apply wf_tier_iff in Hwf as [? _]. }
      rewrite dict_get_del_ne in Hget by done.
      split_and!; [done| |by apply not_elem_of_cons].
      unfold item_at; simpl. rewrite list_lookup_insert_ne; [done|].
      intros ->. apply dict_get_Some in E0, Hget.
      by pose proof (wf_ref_inj _ _ _ _ Hwf E0 Hget).
    + split_and!; [done..|]. apply not_elem_of_cons. split; [|done].
      intros ->. congruence.
Qed.

(** [_add_item] on a single tier: the item [r], already in the heap with
    key [k], enters the index; whatever [trim] evicts, the result is
    well formed, and if [k] is still resident afterwards it is bound to [r]
    and the item is untouched. *)
Lemma add_item_single d c k r w :
  _parent_cache c = None -> wf_tier c = true ->
  dict_get k (_item_dict c) = None -> entry_okb c (k, r) = true ->
  exists c' w', _add_item getsizeof clock (S (S (S d))) c r w = Ok (c', w')
    /\ wf_tier c' = true /\ _parent_cache c' = None /\ _store c' = _store c
    /\ _max_size c' = _max_size c /\ _policy c' = _policy c
    /\ forall k' r', dict_get k' (_item_dict c') = Some r' ->
         item_at (heap c') r' = item_at (heap c) r'
         /\ (if decide (k' = k) then r' = r
             else dict_get k' (_item_dict c) = Some r').
Proof.
  intros Hp Hwf Hget Hok.
  destruct (entry_okb_inv _ _ _ Hok) as (it & Hit & Hk & Hsv & Hsz).
  rewrite add_item_unfold. cbv zeta. rewrite (item_at_lookup _ _ _ Hit), Hk.
  set (c1 := set_index c (dict_set k r (_item_dict c)) (_item_list c ++ [r])).
  pose proof (add_wf c k r Hwf Hget Hok) as Hwf1. fold c1 in Hwf1.
  assert (Hc1 : forall k' r', dict_get k' (_item_dict c1) = Some r' ->
            if decide (k' = k) then r' = r
            else dict_get k' (_item_dict c) = Some r').
  { intros k' r'. unfold c1; simpl. case_decide; subst.
    - rewrite dict_get_set_eq. congruence.
    - by rewrite dict_get_set_ne. }
  destruct (Qlt_bool (_max_size c1) (_size c1 + stored_size it)).
  - destruct (trim_single d c1 (stored_size it) w Hp Hwf1) as (-> & Hwf' & _).
    pose proof (evict_keys_fields (set_index c1 (_item_dict c1) (sorted_items c1)) w
      ((fun r => key (item_at (heap c1) r)) <$>
       trim_select_refs (heap c1) (sorted_items c1) (_size c1) (stored_size it)
         (_max_size c1))) as (Hst & Hpol & Hpar & Hmax & _).
    pose proof (fun k' r' => evict_keys_lookup
      ((fun r => key (item_at (heap c1) r)) <$>
       trim_select_refs (heap c1) (sorted_items c1) (_size c1) (stored_size it)
         (_max_size c1))
      (set_index c1 (_item_dict c1) (sorted_items c1)) w k' r' (sorted_wf _ Hwf1))
      as Hlook.
    destruct (evict_keys _ _ _) as [c2 w2]. simpl in *.
    eexists _, _. split; [done|]. simpl.
    split_and!; try congruence; [exact Hwf'|].
    intros k' r' Hg. destruct (Hlook _ _ Hg) as (Hg1 & Hi & _).
    split; [done|]. by apply Hc1.
  - simpl. eexists _, _. split; [done|]. simpl.
    split_and!; try done.
    intros k' r' Hg. split; [done|]. by apply Hc1.
Qed.

Lemma put_value_unfold d c k v w :
  put_value getsizeof clock (S d) c k v w =
  '(c1, w1) ←
    (if has_parent c then
       '(_, c1, w1) ←
         on_parent c (fun p w => '(p', w') ← remove_value d p k w;
                                 Ok (tt, p', w')) w;
       Ok (c1, w1)
     else Ok (c, w));
  '(c2, item, w2) ←
    match dict_get k (_item_dict c1) with
    | Some item =>
        c2 ← _remove_item c1 item;
        '(it', w2) ← Item_discard (_store c2) k (item_at (heap c2) item) w1;
        Ok (set_item c2 item it', item, w2)
    | None => let '(c2, item) := alloc_item c1 in Ok (c2, item, w1)
    end;
  '(it', w3) ← Item_store getsizeof clock (_store c2) k v
                  (item_at (heap c2) item) w2;
  _add_item getsizeof clock d (set_item c2 item it') item w3.
Proof. reflexivity. Qed.

Lemma store_value_ok s k v w sv sz w' :
  store_value getsizeof s k v w = Ok (sv, sz, w') ->
  stored_okb s k (Some sv) = true /\ 0 <= sz.
Proof.
  destruct s as [|dir ext]; simpl.
  - intros [= <- <- <-]. split; [by apply bool_decide_eq_true|].
    apply compute_object_size_nonneg.
  - destruct (if negb _ then _ else _) as [w1|]; [|done]. simpl.
    destruct (bytes_like v) as [b|]; [|done]. simpl. unfold getsize. simpl.
    rewrite lookup_insert_eq. simpl. intros [= <- <- <-]. split; [done|].
    unfold Qle; simpl. lia.
Qed.

Lemma set_item_wf c r it :
  wf_tier c = true -> (forall k', dict_get k' (_item_dict c) <> Some r) ->
  wf_tier (set_item c r it) = true.
Proof.
  intros Hwf Hr. pose proof Hwf as (Hnd & Hent & Hperm)%wf_tier_iff.
  apply wf_tier_iff. simpl. split_and!; try done.
  intros [k' r'] He. destruct (entry_okb_inv _ _ _ (Hent _ He)) as (it' & Hit & ? & ? & ?).
  eapply entry_okb_intro; eauto. simpl. rewrite list_lookup_insert_ne; [done|].
  intros ->. by apply (Hr k'), dict_get_elem.
Qed.

Lemma put_prepare_spec c k :
  wf_tier c = true ->
  let c2 := put_prepare c k in let r := put_ref c k in
  wf_tier c2 = true /\ dict_get k (_item_dict c2) = None
  /\ (forall k', dict_get k' (_item_dict c2) <> Some r)
  /\ heap c2 !! r = Some Item_new
  /\ _parent_cache c2 = _parent_cache c /\ _store c2 = _store c
  /\ _max_size c2 = _max_size c /\ _policy c2 = _policy c
  /\ (forall k' r', dict_get k' (_item_dict c2) = Some r' ->
        dict_get k' (_item_dict c) = Some r'
        /\ item_at (heap c2) r' = item_at (heap c) r').
Proof.
  intros Hwf. unfold put_prepare, put_ref.
  pose proof Hwf as (Hnd & Hent & Hperm)%wf_tier_iff.
  destruct (dict_get k (_item_dict c)) as [r|] eqn:Hget; simpl.
  - destruct (wf_entry _ _ _ Hwf Hget) as (_ & _ & _ & Hlt & _).
    assert (Hne : forall k' r', dict_get k' (dict_del k (_item_dict c)) = Some r' ->
               k' <> k /\ dict_get k' (_item_dict c) = Some r' /\ r' <> r).
    { intros k' r' Hg. assert (k' <> k).
      { intros ->. by rewrite dict_get_del_eq in Hg. }
      rewrite dict_get_del_ne in Hg by done. split_and!; try done.
      intros ->. apply dict_get_Some in Hg, Hget.
      by pose proof (wf_ref_inj _ _ _ _ Hwf Hg Hget). }
    split_and!; try done.
    + by apply (evict_wf c k r).
    + by apply dict_get_del_eq.
    + intros k' Hg. by destruct (Hne _ _ Hg) as (_ & _ & ?).
    + by rewrite list_lookup_insert_eq.
    + intros k' r' Hg. destruct (Hne _ _ Hg) as (_ & ? & ?). split; [done|].
      unfold item_at. by rewrite list_lookup_insert_ne.
  - assert (Hlt : forall k' r', dict_get k' (_item_dict c) = Some r' ->
               (r' < length (heap c))%nat).
    { intros k' r' Hg. by destruct (wf_entry _ _ _ Hwf Hg) as (_ & _ & _ & ? & _). }
    split_and!; try done.
    + apply wf_tier_iff. simpl. split_and!; try done.
      intros [k' r'] He. destruct (entry_okb_inv _ _ _ (Hent _ He)) as (it' & Hit & ? & ? & ?).
      eapply entry_okb_intro; eauto. simpl. by rewrite lookup_app_l_Some with (x := it').
    + intros k' Hg. apply Hlt in Hg. lia.
    + by rewrite lookup_app_r, Nat.sub_diag.
    + intros k' r' Hg. split; [done|]. unfold item_at.
      by rewrite lookup_app_l by (by eapply Hlt).
Qed.

Lemma put_value_root d c k v w :
  _parent_cache c = None -> wf_tier c = true ->
  put_value getsizeof clock (S d) c k v w =
  '(it', w3) ← Item_store getsizeof clock (_store c) k v Item_new
                  (discard_key_world c k w);
  _add_item getsizeof clock d (set_item (put_prepare c k) (put_ref c k) it')
            (put_ref c k) w3.
Proof.
  intros Hp Hwf. rewrite put_value_unfold. unfold has_parent. rewrite Hp. simpl.
  destruct (put_prepare_spec c k Hwf) as (_ & _ & _ & Hnew & _ & Hst & _).
  unfold put_prepare, put_ref, discard_key_world in *.
  destruct (dict_get k (_item_dict c)) as [r|] eqn:Hget.
  - destruct (wf_entry _ _ _ Hwf Hget) as (Hk & Hsv & _ & Hlt & Hin).
    unfold _remove_item, dict_pop, list_remove_item. rewrite Hk, Hget. simpl.
    rewrite bool_decide_eq_true_2 by done. simpl. unfold Item_discard.
    destruct (discard_value_world _ k _ w Hsv) as [sv' ->]. simpl.
    rewrite (item_at_lookup (<[r:=Item_new]> (heap c)) r Item_new)
      by (by apply list_lookup_insert_eq). done.
  - simpl in *. by rewrite (item_at_lookup _ _ _ Hnew).
Qed.

Lemma Item_store_new s k v w :
  Item_store getsizeof clock s k v Item_new w =
  '(sv, sz, w3) ← store_value getsizeof s k v (tick w);
  Ok (mkItem k (Some sv) sz 0 (clock (ticks w)) 1, w3).
Proof. reflexivity. Qed.

(** [put_value] on a single tier whose store accepts the value. *)
Lemma put_value_single d c k v w sv sz w3 :
  _parent_cache c = None -> wf_tier c = true ->
  store_value getsizeof (_store c) k v (tick (discard_key_world c k w))
    = Ok (sv, sz, w3) ->
  exists c' w',
    put_value getsizeof clock (S (S (S (S d)))) c k v w = Ok (c', w')
    /\ wf_tier c' = true /\ _parent_cache c' = None /\ _store c' = _store c
    /\ _max_size c' = _max_size c /\ _policy c' = _policy c
    /\ forall k' r', dict_get k' (_item_dict c') = Some r' ->
         if decide (k' = k) then
           item_at (heap c') r'
           = mkItem k (Some sv) sz 0 (clock (ticks (discard_key_world c k w))) 1
         else dict_get k' (_item_dict c) = Some r'
              /\ item_at (heap c') r' = item_at (heap c) r'.
Proof.
  intros Hp Hwf Hst. rewrite put_value_root, Item_store_new, Hst by done.
  simpl.
  destruct (put_prepare_spec c k Hwf)
    as (Hwf2 & Hget2 & Hfresh & Hnew & Hp2 & Hs2 & Hm2 & Hpol2 & Hold).
  set (c2 := put_prepare c k) in *. set (r := put_ref c k) in *.
  set (it' := mkItem k (Some sv) sz 0 _ 1).
  assert (Hit : heap (set_item c2 r it') !! r = Some it').
  { simpl. apply list_lookup_insert_eq. by eapply lookup_lt_Some. }
  destruct (store_value_ok _ _ _ _ _ _ _ Hst) as [Hsv Hsz].
  destruct (add_item_single d (set_item c2 r it') k r w3) as
    (c' & w' & -> & Hwf' & Hp' & Hs' & Hm' & Hpol' & Hlook).
  - simpl. congruence.
  - by apply set_item_wf.
  - done.
  - eapply entry_okb_intro; eauto. simpl. by rewrite Hs2.
  - exists c', w'. split; [done|]. simpl in *. split_and!; try congruence.
    intros k' r' Hg. destruct (Hlook _ _ Hg) as [Hi Hd]. case_decide; subst.
    + rewrite Hi. by apply item_at_lookup.
    + destruct (Hold _ _ Hd) as [Hc Hi2]. split; [done|].
      rewrite Hi, <- Hi2. unfold item_at.
      rewrite list_lookup_insert_ne; [done|]. intros ->. by apply (Hfresh k').
Qed.

Lemma get_value_unfold d c k w :
  get_value getsizeof clock (S d) c k w =
  '(value, restored, c1, w1) ←
    match dict_get k (_item_dict c) with
    | Some item =>
        '(value, it', w1) ←
          Item_restore clock (_store c) k (item_at (heap c) item) w;
        Ok (value, true, set_item c item it', w1)
    | None =>
        if has_parent c then
          '(item, c1, w1) ←
            on_parent c (fun p => get_value getsizeof clock d p k) w;
          if truthy item then
            value ← value_restore item (_parent_cache c1) k;
            Ok (value, true, c1, w1)
          else Ok (VNone, false, c1, w1)
        else Ok (VNone, false, c, w)
    end;
  if negb restored then
    '(oit, w2) ← Item_load_from_key clock (_store c1) k w1;
    match oit with
    | Some it =>
        let '(c2, item) := alloc_item c1 in
        '(c3, w3) ← _add_item getsizeof clock d (set_item c2 item it) item w2;
        '(value, it', w4) ←
          Item_restore clock (_store c3) k (item_at (heap c3) item) w3;
        Ok (value, set_item c3 item it', w4)
    | None => Ok (value, c1, w2)
    end
  else Ok (value, c1, w1).
Proof. reflexivity. Qed.

Lemma get_value_resident d c k r w :
  dict_get k (_item_dict c) = Some r ->
  get_value getsizeof clock (S d) c k w =
  '(value, it', w1) ← Item_restore clock (_store c) k (item_at (heap c) r) w;
  Ok (value, set_item c r it', w1).
Proof.
  intros Hget. rewrite get_value_unfold, Hget.
  destruct (Item_restore _ _ _ _ _) as [[[? ?] ?]|]; done.
Qed.

(** C3. On a well-formed single-tier engine over the memory store,
    [put_value(key, value)] returns, and unless the trim it triggered
    evicted [key], [get_value(key)] right after it returns [value]. *)
Theorem put_then_get d c k v w :
  _parent_cache c = None -> _store c = MemoryCacheStore ->
  wf_tier c = true -> (4 <= d)%nat ->
  exists c1 w1,
    put_value getsizeof clock d c k v w = Ok (c1, w1)
    /\ (dict_get k (_item_dict c1) <> None ->
        exists c2 w2, get_value getsizeof clock d c1 k w1 = Ok (v, c2, w2)).
Proof.
  intros Hp Hs Hwf Hd.
  destruct d as [|[|[|[|d]]]]; try lia.
  destruct (put_value_single d c k v w (SMem k v)
              (_compute_object_size getsizeof v) (tick (discard_key_world c k w)))
    as (c1 & w1 & Hput & Hwf1 & Hp1 & Hs1 & _ & _ & Hlook); try done.
  { by rewrite Hs. }
  exists c1, w1. split; [done|]. intros Hres.
  destruct (dict_get k (_item_dict c1)) as [r|] eqn:Hget; [|done].
  specialize (Hlook _ _ Hget). rewrite decide_True in Hlook by done.
  rewrite (get_value_resident _ _ _ r) by done.
  rewrite Hlook, Hs1, Hs. unfold Item_restore. simpl.
  rewrite decide_False by (intros Hn; by apply Hn). simpl. eauto.
Qed.

Ltac ev :=
  cbn -[Qplus Qminus Qmult Qle_bool Qlt_bool];
  repeat (first [ rewrite decide_True by done
                | rewrite decide_False by (intros [=])
                | rewrite decide_False by (intros Hn; by apply Hn)
                | rewrite bool_decide_eq_true_2 by (repeat constructor) ];
          cbn -[Qplus Qminus Qmult Qle_bool Qlt_bool]).

(** C4. The engine of capacity 100 and threshold 0.5 with the LRU policy:
    after putting two values of stored size 30 under ['a'] and ['b'], the
    second put has trimmed ['a'] away; [get_value('a')] finds nothing and
    [get_value('b')] returns the second value. *)
Theorem lru_scenario d v1 v2 w :
  (forall m n, (m <= n)%nat -> clock m <= clock n) ->
  _compute_object_size getsizeof v1 == 30 ->
  _compute_object_size getsizeof v2 == 30 ->
  (4 <= d)%nat ->
  let c0 := Cache_new MemoryCacheStore 100 (1#2) POLICY_LRU None in
  exists c1 w1 c2 w2,
    put_value getsizeof clock d c0 (KStr "a") v1 w = Ok (c1, w1)
    /\ put_value getsizeof clock d c1 (KStr "b") v2 w1 = Ok (c2, w2)
    /\ _max_size c1 < _size c1 + _compute_object_size getsizeof v2
    /\ dict_get (KStr "a") (_item_dict c2) = None
    /\ (exists c3 w3, get_value getsizeof clock d c2 (KStr "a") w2 = Ok (VNone, c3, w3))
    /\ (exists c3 w3, get_value getsizeof clock d c2 (KStr "b") w2 = Ok (v2, c3, w3)).
Proof.
  intros Hmono H1 H2 Hd c0.
  destruct d as [|[|[|[|d]]]]; try lia.
  assert (Hclk : Qle_bool (clock (ticks w)) (clock (S (ticks w))) = true).
  { apply Qle_bool_iff, Hmono. lia. }
  (* first put *)
  rewrite put_value_unfold. unfold c0 at 1, Cache_new, has_parent. ev.
  rewrite add_item_unfold. ev.
  rewrite Qlt_bool_false by (ev; lra). ev.
  eexists _, _, _, _. split; [reflexivity|].
  rewrite put_value_unfold. unfold has_parent. ev.
  rewrite add_item_unfold. ev.
  rewrite Qlt_bool_true by (ev; lra).
  rewrite trim_unfold. unfold sorted_items, sort_by. ev. rewrite Hclk. ev.
  rewrite Qlt_bool_true by lra. rewrite Qlt_bool_false by lra. ev.
  unfold has_parent. ev. rewrite remove_value_root by done.
  unfold remove_own. ev.
  unfold _remove_item, dict_pop, list_remove_item. ev.
  split; [reflexivity|]. split; [lra|]. ev. split; [done|].
  split.
  - rewrite get_value_unfold. unfold has_parent. ev. eauto.
  - rewrite get_value_unfold. ev. eauto.
Qed.


Lemma clear_unfold d c clear_parent w :
  clear getsizeof clock (S d) c clear_parent w =
  '(c1, w1) ←
    (if has_parent c && clear_parent then
       '(_, c1, w1) ←
         on_parent c
           (fun p w => '(p', w') ← clear getsizeof clock d p clear_parent w;
                       Ok (tt, p', w')) w;
       Ok (c1, w1)
     else Ok (c, w));
  foldM (clear_body getsizeof clock d clear_parent) (c1, w1) (_item_dict c1).*1.
Proof. reflexivity. Qed.

(** C6 (amended). [trim] ranks the resident items in ascending order of
    their policy score, items of equal score staying in their previous list
    order, and evicts a prefix of that ranking, in that order: of two evicted
    items, the one evicted earlier has the lower score, or an equal score and
    the earlier place in the item list as it was before the trim. *)
Theorem trim_evicts_lowest_score_first d c extra w :
  trim getsizeof clock (S d) c extra w
  = foldM (trim_body getsizeof clock d)
          (set_index c (_item_dict c) (sorted_items c), w)
          ((fun r => key (item_at (heap c) r)) <$> trim_refs c extra)
  /\ sorted_items c ≡ₚ _item_list c
  /\ (exists n, trim_refs c extra = take n (sorted_items c))
  /\ ascending (score c) (sorted_items c)
  /\ (forall q, same_score c q (sorted_items c) = same_score c q (_item_list c))
  /\ (forall i j ri rj,
        trim_refs c extra !! i = Some ri -> trim_refs c extra !! j = Some rj ->
        (i < j)%nat ->
        score c ri <= score c rj
        /\ (score c ri == score c rj ->
            exists i' j', (i' < j')%nat /\ _item_list c !! i' = Some ri
                          /\ _item_list c !! j' = Some rj)).
Proof.
  assert (Hasc : ascending (score c) (sorted_items c)) by apply sort_by_ascending.
  destruct (trim_select_refs_prefix (heap c) (sorted_items c) (_size c) extra
              (_max_size c)) as [n Hn].
  split_and!.
  - by rewrite trim_unfold, trim_select_keys.
  - apply sort_by_perm.
  - by exists n.
  - done.
  - intros q. apply sort_by_stable.
  - unfold trim_refs. rewrite Hn. intros i j ri rj Hi Hj Hij.
    apply lookup_take_Some in Hi as [Hi _], Hj as [Hj _].
    split; [by apply (Hasc i j)|].
    intros Heq. by apply (sort_by_keeps_order (score c) _ i j).
Qed.

(** C8. [MemoryCacheStore.load_from_key] raises for every key, but what
    [raise NotImplemented()] raises is [TypeError], not the error that
    signals an unsupported operation. *)
Theorem memory_load_from_key_raises k w :
  load_from_key MemoryCacheStore k w = Raise TypeError
  /\ load_from_key MemoryCacheStore k w <> Raise NotImplementedError.
Proof. split; [reflexivity | discriminate]. Qed.

(** C9. [FileCacheStore.discard_value] never raises; afterwards there is no
    file at the key's path and every other file is as before; discarding
    again changes nothing and does not raise either. *)
Theorem file_discard_idempotent dir ext k sv w :
  exists w1,
    discard_value (FileCacheStore dir ext) k sv w = Ok (sv, w1)
    /\ fs w1 !! _key_to_path dir ext k = None
    /\ (forall p, p <> _key_to_path dir ext k -> fs w1 !! p = fs w !! p)
    /\ forall sv', discard_value (FileCacheStore dir ext) k sv' w1 = Ok (sv', w1).
Proof.
  simpl. unfold os_remove.
  destruct (fs w !! _key_to_path dir ext k) eqn:E.
  - eexists. split; [done|]. simpl. rewrite lookup_delete_eq.
    split_and!; [done| |done].
    intros p Hp. by rewrite lookup_delete_ne.
  - exists w. rewrite E. done.
Qed.

Lemma Item_restore_item s k it w v it' w' :
  Item_restore clock s k it w = Ok (v, it', w') ->
  key it' = key it /\ stored_value it' = stored_value it
  /\ stored_size it' = stored_size it.
Proof.
  unfold Item_restore. simpl.
  destruct (restore_value _ _ _ _); [|done]. simpl. by intros [= <- <- <-].
Qed.

Lemma set_item_same_wf c k r it' :
  wf_tier c = true -> dict_get k (_item_dict c) = Some r ->
  key it' = key (item_at (heap c) r) ->
  stored_value it' = stored_value (item_at (heap c) r) ->
  stored_size it' = stored_size (item_at (heap c) r) ->
  wf_tier (set_item c r it') = true.
Proof.
  intros Hwf Hget Hk Hsv Hsz. pose proof Hwf as (Hnd & Hent & Hperm)%wf_tier_iff.
  destruct (wf_entry _ _ _ Hwf Hget) as (Hk0 & Hsv0 & Hsz0 & Hlt & _).
  apply wf_tier_iff. simpl. split_and!; try done.
  intros [k' r'] He. destruct (entry_okb_inv _ _ _ (Hent _ He)) as (it0 & Hit & ? & ? & ?).
  destruct (decide (r' = r)) as [->|Hne].
  - assert (k' = k) as -> by (eapply wf_ref_inj; eauto using dict_get_Some).
    eapply entry_okb_intro; simpl.
    + by apply list_lookup_insert_eq.
    + congruence.
    + by rewrite Hsv.
    + by rewrite Hsz.
  - eapply entry_okb_intro; eauto. simpl. by rewrite list_lookup_insert_ne.
Qed.

(** C10. In a chain with a parent tier, when the value read back for a
    resident key is falsy, the per-key step of [trim] and the per-key step
    of [clear(clear_parent=False)] only remove the key: the parent's
    [put_value] is not run, and afterwards the key is in no tier's index. *)
Theorem falsy_value_lost_on_demotion d c k r w v c2 w2 :
  wf c = true -> has_parent c = true ->
  (length (tiers c) <= d)%nat ->
  dict_get k (_item_dict c) = Some r ->
  get_value getsizeof clock d c k w = Ok (v, c2, w2) ->
  truthy v = false ->
  exists c3 w3,
    remove_value d c2 k w2 = Ok (c3, w3)
    /\ trim_body getsizeof clock d (c, w) k = Ok (c3, w3)
    /\ clear_body getsizeof clock d false (c, w) k = Ok (c3, w3)
    /\ absent k c3.
Proof.
  intros Hwf Hpar Hlen Hget Hval Hf.
  destruct d as [|d]; [rewrite tiers_unfold in Hlen; simpl in Hlen; lia|].
  pose proof Hval as Hval'.
  rewrite (get_value_resident _ _ _ r) in Hval' by done.
  destruct (Item_restore clock (_store c) k (item_at (heap c) r) w)
    as [[[v' it'] w']|] eqn:Hres; [|done].
  simpl in Hval'. injection Hval' as -> <- ->.
  destruct (Item_restore_item _ _ _ _ _ _ _ Hres) as (Hk & Hsv & Hsz).
  assert (Hwf2 : wf (set_item c r it') = true).
  { rewrite wf_unfold in Hwf |- *. simpl.
    apply andb_true_iff in Hwf as [Hwt Hwp]. apply andb_true_iff. split; [|done].
    by eapply set_item_same_wf. }
  destruct (remove_value_total (S d) (set_item c r it') k w2 Hwf2)
    as (c3 & w3 & Hrm & Hab & _ & _).
  { rewrite tiers_unfold. rewrite tiers_unfold in Hlen. done. }
  exists c3, w3. split; [done|].
  unfold trim_body, clear_body. rewrite Hpar, Hval. simpl.
  rewrite Hrm, Hf. simpl. done.
Qed.

(** A read that finds the key in the parent tier calls [restore] on the
    value the parent returned, which raises. *)
Lemma get_value_parent_hit_raises d c p k w v p' w' :
  _parent_cache c = Some p -> dict_get k (_item_dict c) = None ->
  get_value getsizeof clock d p k w = Ok (v, p', w') -> truthy v = true ->
  get_value getsizeof clock (S d) c k w = Raise AttributeError.
Proof.
  intros Hp Hget Hpar Hv. rewrite get_value_unfold, Hget.
  unfold has_parent, on_parent. rewrite Hp, Hpar. simpl. by rewrite Hv.
Qed.

End Properties.

(** ** The properties at concrete inputs *)

Lemma ex_clock_mono m n : (m <= n)%nat -> ex_clock m <= ex_clock n.
Proof. intros Hmn. unfold ex_clock, Qle; simpl. lia. Qed.

(** C1. On the engine of capacity 100 and threshold 0.5, putting a value of
    60 units makes [trim] evict the item that is being added: the index is
    empty afterwards while [_size] is -60. *)
Theorem size_drift_after_oversized_put :
  exists c w,
    put_value ex_getsizeof ex_clock 10 ex_cache (KStr "a")
              (VMemview (zeros 60)) ex_world = Ok (c, w)
    /\ _item_dict c = [] /\ index_size c == 0 /\ _size c == -60
    /\ ~ _size c == index_size c.
Proof.
  eexists _, _. split; [vm_compute; reflexivity|]. by vm_compute.
Qed.

(** C5. After the child demoted ['a'] into its parent, reading ['a'] through
    the child raises [AttributeError] although the parent holds the key. *)
Theorem get_value_after_demotion_raises :
  exists c p w,
    ex_demoted = Ok (c, w) /\ _parent_cache c = Some p
    /\ dict_get (KStr "a") (_item_dict c) = None
    /\ dict_get (KStr "a") (_item_dict p) = Some 0%nat
    /\ get_value ex_getsizeof ex_clock 10 c (KStr "a") w = Raise AttributeError.
Proof.
  eexists _, _, _. split; [vm_compute; reflexivity|]. by vm_compute.
Qed.

(** C6 as stated fails. After [put_value('a', memoryview(bytes(20)))] and
    [put_value('b', memoryview(bytes(20)))] on an engine of capacity 100 and
    threshold 0.5, a [trim(45)] evicts both entries, ['a'] (the lower score,
    its access time being the earlier one) before ['b']. *)
Lemma evicts_higher_score_first_fails :
  exists c w, ex_twenty = Ok (c, w) /\ ~ evicts_higher_score_first c 45.
Proof.
  eexists _, _. split; [vm_compute; reflexivity|].
  intros H. specialize (H 1%nat 0%nat 1%nat 0%nat).
  assert (1 < 0)%nat; [|lia]. apply H; by vm_compute.
Qed.

Lemma trim_single_bound_witness :
  exists c' w', trim ex_getsizeof ex_clock 2 ex_over 0 ex_world = Ok (c', w')
    /\ _size c' <= _max_size c' /\ wf_tier c' = true.
Proof.
  apply (trim_single_bound ex_getsizeof ex_clock 0 ex_over ex_world);
    by vm_compute.
Defined.

Lemma put_then_get_witness :
  exists c1 w1,
    put_value ex_getsizeof ex_clock 4 ex_cache (KStr "a") (VStr "x") ex_world
      = Ok (c1, w1)
    /\ (dict_get (KStr "a") (_item_dict c1) <> None ->
        exists c2 w2,
          get_value ex_getsizeof ex_clock 4 c1 (KStr "a") w1 = Ok (VStr "x", c2, w2)).
Proof.
  apply (put_then_get ex_getsizeof ex_clock 4 ex_cache (KStr "a") (VStr "x")
           ex_world); first [reflexivity | lia].
Defined.

Lemma lru_scenario_witness :
  exists c1 w1 c2 w2,
    put_value ex_getsizeof ex_clock 4 ex_cache (KStr "a") (VMemview (zeros 30))
              ex_world = Ok (c1, w1)
    /\ put_value ex_getsizeof ex_clock 4 c1 (KStr "b") (VImage 5 6 "L") w1
       = Ok (c2, w2)
    /\ _max_size c1 < _size c1 + _compute_object_size ex_getsizeof (VImage 5 6 "L")
    /\ dict_get (KStr "a") (_item_dict c2) = None
    /\ (exists c3 w3, get_value ex_getsizeof ex_clock 4 c2 (KStr "a") w2
                      = Ok (VNone, c3, w3))
    /\ (exists c3 w3, get_value ex_getsizeof ex_clock 4 c2 (KStr "b") w2
                      = Ok (VImage 5 6 "L", c3, w3)).
Proof.
  apply (lru_scenario ex_getsizeof ex_clock 4 (VMemview (zeros 30))
           (VImage 5 6 "L") ex_world).
  - apply ex_clock_mono.
  - by vm_compute.
  - by vm_compute.
  - lia.
Defined.

Lemma remove_value_idempotent_witness :
  (exists c1 w1,
     remove_value 2 (fst ex_falsy) (KStr "a") (snd ex_falsy) = Ok (c1, w1)
     /\ remove_value 2 c1 (KStr "a") w1 = Ok (c1, w1))
  /\ (absent (KStr "a") (fst ex_falsy) ->
      remove_value 2 (fst ex_falsy) (KStr "a") (snd ex_falsy)
      = Ok (fst ex_falsy, snd ex_falsy)).
Proof.
  apply (remove_value_idempotent 2 (fst ex_falsy) (KStr "a") (snd ex_falsy)).
  - by vm_compute.
  - vm_compute. lia.
Defined.

Lemma falsy_value_lost_on_demotion_witness :
  exists c3 w3,
    remove_value 2
      (set_item (fst ex_falsy) 0%nat
         (fst (Item__access ex_clock (item_at (heap (fst ex_falsy)) 0%nat)
                 (snd ex_falsy))))
      (KStr "a") (tick (snd ex_falsy)) = Ok (c3, w3)
    /\ trim_body ex_getsizeof ex_clock 2 ex_falsy (KStr "a") = Ok (c3, w3)
    /\ clear_body ex_getsizeof ex_clock 2 false ex_falsy (KStr "a") = Ok (c3, w3)
    /\ absent (KStr "a") c3.
Proof.
  apply (falsy_value_lost_on_demotion ex_getsizeof ex_clock 2 (fst ex_falsy)
           (KStr "a") 0%nat (snd ex_falsy) (VInt 0)).
  - by vm_compute.
  - by vm_compute.
  - vm_compute. lia.
  - by vm_compute.
  - by vm_compute.
  - reflexivity.
Defined.

(** * Further properties

    The stores on their own, the invariants of the engine over sequences
    of public operations, and the edges of the read and write paths. *)

(** ** Sizes, eviction and the index *)

Lemma wf_refs_NoDup c : wf_tier c = true -> NoDup (_item_dict c).*2.
Proof.
  intros (Hnd & Hent & Hperm)%wf_tier_iff.
  apply NoDup_fmap_2_strong; [|by eapply NoDup_fmap_1].
  intros [k1 r1] [k2 r2] H1 H2; simpl; intros <-. f_equal.
  destruct (entry_okb_inv _ _ _ (Hent _ H1)) as (it & Hit & ? & _).
  destruct (entry_okb_inv _ _ _ (Hent _ H2)) as (it' & Hit' & ? & _).
  congruence.
Qed.

Lemma index_size_evict c k r :
  wf_tier c = true -> dict_get k (_item_dict c) = Some r ->
  index_size (evict c k r) == index_size c - stored_size (item_at (heap c) r).
Proof.
  intros Hwf Hget. unfold index_size. simpl.
  pose proof (dict_del_perm _ _ _ Hget) as Hperm.
  pose proof (wf_refs_NoDup c Hwf) as Hnd. rewrite Hperm in Hnd.
  apply NoDup_cons in Hnd as [Hr _].
  rewrite (sum_sizes_perm (heap c) _ _ Hperm).
  rewrite (sum_sizes_ext _ (heap c)).
  - unfold sum_sizes; simpl. lra.
  - intros r' Hr'. unfold item_at. rewrite list_lookup_insert_ne; [done|].
    by intros ->.
Qed.

(** The gap between the sizes in the index and [_size]. *)
Lemma evict_key_drift c k :
  wf_tier c = true ->
  index_size (evict_key c k) - _size (evict_key c k) == index_size c - _size c.
Proof.
  intros Hwf. unfold evict_key.
  destruct (dict_get k (_item_dict c)) as [r|] eqn:Hget; [|lra].
  rewrite index_size_evict by done. simpl. lra.
Qed.

Lemma evict_keys_drift ks : forall c w,
  wf_tier c = true ->
  index_size (evict_keys c w ks).1 - _size (evict_keys c w ks).1
  == index_size c - _size c.
Proof.
  induction ks as [|k ks IH]; intros c w Hwf; simpl; [lra|].
  rewrite IH by (by apply evict_key_wf). by apply evict_key_drift.
Qed.

Lemma evict_keys_heap ks : forall c w r,
  item_at (heap (evict_keys c w ks).1) r = item_at (heap c) r
  \/ item_at (heap (evict_keys c w ks).1) r = Item_new.
Proof.
  induction ks as [|k ks IH]; intros c w r; simpl; [by left|].
  destruct (IH (evict_key c k) (discard_key_world c k w) r) as [->| ->];
    [|by right].
  unfold evict_key. destruct (dict_get k (_item_dict c)) as [r0|]; [|by left].
  simpl. unfold item_at. destruct (decide (r0 = r)) as [->|Hne].
  - destruct (decide (r < length (heap c))%nat).
    + right. by rewrite list_lookup_insert_eq.
    + left. by rewrite list_insert_ge by lia.
  - left. by rewrite list_lookup_insert_ne.
Qed.

Lemma evict_keys_ticks ks : forall c w, ticks (evict_keys c w ks).2 = ticks w.
Proof.
  induction ks as [|k ks IH]; intros c w; simpl; [done|]. rewrite IH.
  unfold discard_key_world, discard_world.
  destruct (dict_get k (_item_dict c)); [|done]. by destruct (_store c).
Qed.

Lemma sum_sizes_app h l1 l2 :
  sum_sizes h (l1 ++ l2) == sum_sizes h l1 + sum_sizes h l2.
Proof.
  induction l1 as [|r l1 IH]; unfold sum_sizes in *; simpl; [lra|].
  rewrite IH. lra.
Qed.

Lemma sum_sizes_ext_size h1 h2 l :
  (forall r, r ∈ l -> stored_size (item_at h1 r) = stored_size (item_at h2 r)) ->
  sum_sizes h1 l = sum_sizes h2 l.
Proof.
  induction l as [|r l IH]; simpl; intros H; [done|].
  rewrite (H r) by left. unfold sum_sizes in *. rewrite IH; [done|].
  intros; apply H; by right.
Qed.

Lemma index_size_set_item_same c r it :
  stored_size it = stored_size (item_at (heap c) r) ->
  index_size (set_item c r it) = index_size c.
Proof.
  intros Hsz. unfold index_size. simpl. apply sum_sizes_ext_size.
  intros r' _. unfold item_at. destruct (decide (r' = r)) as [->|Hne].
  - destruct (decide (r < length (heap c))%nat).
    + rewrite list_lookup_insert_eq by done. done.
    + by rewrite list_insert_ge by lia.
  - by rewrite list_lookup_insert_ne.
Qed.

Lemma index_size_set_item_fresh c r it :
  wf_tier c = true -> (forall k', dict_get k' (_item_dict c) <> Some r) ->
  index_size (set_item c r it) = index_size c.
Proof.
  intros Hwf Hr. unfold index_size. simpl. apply sum_sizes_ext.
  intros r' Hr'. unfold item_at. rewrite list_lookup_insert_ne; [done|].
  intros ->. apply list_elem_of_fmap in Hr' as [[k' r''] [-> He]]. simpl in *.
  apply (Hr k'). apply dict_get_elem; [|done].
  by apply wf_tier_iff in Hwf as [? _].
Qed.

Section Single.
Context (getsizeof : value -> N) (clock : nat -> Q).

Lemma kept_refl c : _parent_cache c = None -> wf_tier c = true -> kept c c.
Proof. by repeat split. Qed.

Lemma kept_trans c1 c2 c3 : kept c1 c2 -> kept c2 c3 -> kept c1 c3.
Proof. unfold kept. intuition congruence. Qed.

Lemma remove_value_single_inv d c k w c' w' :
  _parent_cache c = None -> wf_tier c = true ->
  remove_value d c k w = Ok (c', w') ->
  c' = evict_key c k /\ w' = discard_key_world c k w.
Proof.
  intros Hp Hwf. destruct d as [|d]; [done|].
  rewrite remove_value_root, remove_own_evict by done. by intros [= <- <-].
Qed.

Lemma trim_loop_single_inv d ks : forall c w r,
  _parent_cache c = None -> wf_tier c = true ->
  foldM (trim_body getsizeof clock d) (c, w) ks = Ok r ->
  r = evict_keys c w ks.
Proof.
  induction ks as [|k ks IH]; intros c w r Hp Hwf; simpl.
  - by intros [= <-].
  - unfold has_parent. rewrite Hp.
    destruct (remove_value d c k w) as [[c1 w1]|] eqn:E; [|done]. simpl.
    apply remove_value_single_inv in E as [-> ->]; [|done..].
    apply IH; [by rewrite evict_key_parent | by apply evict_key_wf].
Qed.

Lemma trim_single_inv d c e w r :
  _parent_cache c = None -> wf_tier c = true ->
  trim getsizeof clock d c e w = Ok r ->
  r = evict_keys (set_index c (_item_dict c) (sorted_items c)) w
        (trim_select (heap c) (sorted_items c) (_size c) e (_max_size c)).
Proof.
  intros Hp Hwf. destruct d as [|d]; [done|]. rewrite trim_unfold.
  apply trim_loop_single_inv; [done|]. by apply sorted_wf.
Qed.

Lemma evict_keys_kept c w ks :
  _parent_cache c = None -> wf_tier c = true -> kept c (evict_keys c w ks).1.
Proof.
  intros Hp Hwf.
  destruct (evict_keys_fields c w ks) as (? & ? & ? & ? & ? & ?).
  pose proof (evict_keys_wf c w ks Hwf). unfold kept. intuition congruence.
Qed.

(** [trim] on a single tier. *)
Lemma trim_single_post d c e w c' w' :
  _parent_cache c = None -> wf_tier c = true ->
  trim getsizeof clock d c e w = Ok (c', w') ->
  kept c c' /\ drift c' == drift c /\ ticks w' = ticks w
  /\ (forall k r, dict_get k (_item_dict c') = Some r ->
        dict_get k (_item_dict c) = Some r
        /\ item_at (heap c') r = item_at (heap c) r)
  /\ (forall r, item_at (heap c') r = item_at (heap c) r
                \/ item_at (heap c') r = Item_new).
Proof.
  intros Hp Hwf Ht. apply trim_single_inv in Ht; [|done..].
  pose proof (sorted_wf c Hwf) as Hwf1.
  set (c1 := set_index c (_item_dict c) (sorted_items c)) in *.
  set (ks := trim_select _ _ _ _ _) in *.
  pose proof (evict_keys_kept c1 w ks Hp Hwf1) as Hk.
  pose proof (evict_keys_drift ks c1 w Hwf1) as Hd.
  pose proof (evict_keys_ticks ks c1 w) as Htk.
  pose proof (fun k r => evict_keys_lookup ks c1 w k r Hwf1) as Hl.
  pose proof (evict_keys_heap ks c1 w) as Hh.
  rewrite <- Ht in *. simpl in *. split_and!; try done.
  intros k r Hg. by destruct (Hl _ _ Hg) as (? & ? & _).
Qed.

Lemma clear_single_inv d c b w r :
  _parent_cache c = None -> wf_tier c = true ->
  clear getsizeof clock d c b w = Ok r ->
  r = evict_keys c w (_item_dict c).*1.
Proof.
  intros Hp Hwf. destruct d as [|d]; [done|]. rewrite clear_unfold.
  unfold has_parent. rewrite Hp. simpl.
  generalize ((_item_dict c).*1). intros ks. revert c w r Hp Hwf.
  induction ks as [|k ks IH]; intros c w r Hp Hwf; simpl.
  - by intros [= <-].
  - unfold has_parent. rewrite Hp. simpl.
    destruct (remove_value d c k w) as [[c1 w1]|] eqn:E; [|done]. simpl.
    apply remove_value_single_inv in E as [-> ->]; [|done..].
    apply IH; [by rewrite evict_key_parent | by apply evict_key_wf].
Qed.

Lemma index_size_add c k r :
  index_size (set_index c (_item_dict c ++ [(k, r)])%list (_item_list c ++ [r])%list)
  == index_size c + stored_size (item_at (heap c) r).
Proof.
  unfold index_size. simpl. rewrite fmap_app, sum_sizes_app.
  unfold sum_sizes; simpl. lra.
Qed.

(** [_add_item] on a single tier, for an item [r] that is allocated,
    carries the key [k] and is not in the index yet. *)
Lemma add_item_single_inv d c k r w c' w' :
  _parent_cache c = None -> wf_tier c = true ->
  dict_get k (_item_dict c) = None -> entry_okb c (k, r) = true ->
  _add_item getsizeof clock d c r w = Ok (c', w') ->
  kept c c' /\ ticks w' = ticks w
  /\ (forall k' r', dict_get k' (_item_dict c') = Some r' ->
        item_at (heap c') r' = item_at (heap c) r'
        /\ (if decide (k' = k) then r' = r
            else dict_get k' (_item_dict c) = Some r'))
  /\ drift c <= drift c'
  /\ (dict_get k (_item_dict c') <> None -> drift c' == drift c)
  /\ (item_at (heap c') r = item_at (heap c) r
      \/ item_at (heap c') r = Item_new).
Proof.
  intros Hp Hwf Hget Hok.
  destruct (entry_okb_inv _ _ _ Hok) as (it & Hit & Hk & Hsv & Hsz).
  destruct d as [|d]; [done|].
  rewrite add_item_unfold. cbv zeta. rewrite (item_at_lookup _ _ _ Hit), Hk.
  pose proof (add_wf c k r Hwf Hget Hok) as Hwf1.
  pose proof (index_size_add c k r) as Hidx.
  rewrite (item_at_lookup _ _ _ Hit) in Hidx.
  rewrite dict_set_absent in * by done.
  set (c1 := set_index c (_item_dict c ++ [(k, r)])%list (_item_list c ++ [r])%list) in *.
  assert (Hc1 : forall k' r', dict_get k' (_item_dict c1) = Some r' ->
            if decide (k' = k) then r' = r
            else dict_get k' (_item_dict c) = Some r').
  { intros k' r'. unfold c1; simpl. rewrite <- dict_set_absent by done.
    case_decide; subst.
    - rewrite dict_get_set_eq. congruence.
    - by rewrite dict_get_set_ne. }
  destruct (Qlt_bool (_max_size c1) (_size c1 + stored_size it)).
  - destruct (trim getsizeof clock d c1 (stored_size it) w) as [[c2 w2]|] eqn:Ht;
      [|done].
    simpl. intros [= <- <-].
    destruct (trim_single_post d c1 _ w c2 w2 Hp Hwf1 Ht)
      as (Hk2 & Hd2 & Htk & Hl2 & Hh2).
    destruct Hk2 as (? & ? & ? & ? & ? & ? & ?).
    unfold drift in *. simpl in *.
    change (index_size (set_size c2 ?x)) with (index_size c2).
    assert (Hheap : item_at (heap c2) r = it \/ item_at (heap c2) r = Item_new).
    { destruct (Hh2 r) as [->| ->]; [left|by right]. by apply item_at_lookup. }
    split_and!.
    + unfold kept, c1 in *. simpl in *.
      split_and!; first [congruence | assumption].
    + done.
    + intros k' r' Hg. destruct (Hl2 _ _ Hg) as [Hg1 Hi]. split; [done|].
      by apply Hc1.
    + destruct Hheap as [->| ->]; simpl; lra.
    + intros Hres. destruct (dict_get k (_item_dict c2)) as [r'|] eqn:Hg; [|done].
      destruct (Hl2 _ _ Hg) as [Hg1 Hi]. apply Hc1 in Hg1.
      rewrite decide_True in Hg1 by done. subst r'.
      rewrite Hi, (item_at_lookup _ _ _ Hit). lra.
    + exact Hheap.
  - simpl. intros [= <- <-]. unfold drift in *. simpl.
    change (index_size (set_size c1 ?x)) with (index_size c1).
    split_and!.
    + unfold kept. simpl. split_and!; done.
    + done.
    + intros k' r' Hg. split; [done|]. by apply Hc1.
    + fold c1. rewrite (item_at_lookup _ _ _ Hit). lra.
    + intros _. fold c1. rewrite (item_at_lookup _ _ _ Hit). lra.
    + left. by apply item_at_lookup.
Qed.

Lemma index_size_put_prepare c k :
  wf_tier c = true -> drift (put_prepare c k) == drift c.
Proof.
  intros Hwf. unfold put_prepare, drift.
  destruct (dict_get k (_item_dict c)) as [r|] eqn:Hget.
  - rewrite index_size_evict by done. simpl. lra.
  - simpl. unfold index_size at 1. simpl.
    rewrite (sum_sizes_ext _ (heap c)); [unfold index_size; lra|].
    intros r Hr. apply list_elem_of_fmap in Hr as [[k' r'] [-> He]]. simpl.
    apply wf_tier_iff in Hwf as (Hnd & Hent & _).
    destruct (entry_okb_inv _ _ _ (Hent _ He)) as (it & Hit & _).
    unfold item_at. by rewrite (lookup_app_l_Some _ _ _ _ Hit), Hit.
Qed.

(** [put_value] on a single tier. *)
Lemma put_value_single_inv d c k v w c' w' :
  _parent_cache c = None -> wf_tier c = true ->
  put_value getsizeof clock d c k v w = Ok (c', w') ->
  kept c c'
  /\ drift c <= drift c'
  /\ (dict_get k (_item_dict c') <> None -> drift c' == drift c)
  /\ (forall k' r', k' <> k -> dict_get k' (_item_dict c') = Some r' ->
        dict_get k' (_item_dict c) = Some r'
        /\ item_at (heap c') r' = item_at (heap c) r').
Proof.
  intros Hp Hwf. destruct d as [|d]; [done|].
  rewrite put_value_root, Item_store_new by done.
  destruct (store_value _ _ _ _ _) as [[[sv sz] w3]|] eqn:Hst; [|done].
  simpl. intros Hadd.
  destruct (put_prepare_spec c k Hwf)
    as (Hwf2 & Hget2 & Hfresh & Hnew & Hp2 & Hs2 & Hm2 & Hpol2 & Hold).
  pose proof (index_size_put_prepare c k Hwf) as Hd2.
  assert (Hcap : _capacity (put_prepare c k) = _capacity c
                 /\ _threshold (put_prepare c k) = _threshold c).
  { unfold put_prepare. by destruct (dict_get k (_item_dict c)). }
  set (c2 := put_prepare c k) in *. set (r := put_ref c k) in *.
  set (it' := mkItem k (Some sv) sz 0 _ 1) in *.
  assert (Hit : heap (set_item c2 r it') !! r = Some it').
  { simpl. apply list_lookup_insert_eq. by eapply lookup_lt_Some. }
  destruct (store_value_ok _ _ _ _ _ _ _ _ Hst) as [Hsv Hsz].
  destruct (add_item_single_inv d (set_item c2 r it') k r w3 c' w')
    as (Hk & _ & Hlook & Hle & Heq & _); try done.
  { simpl. congruence. }
  { by apply set_item_wf. }
  { eapply entry_okb_intro; eauto. simpl. by rewrite Hs2. }
  assert (Hd3 : drift (set_item c2 r it') == drift c).
  { unfold drift in *. rewrite index_size_set_item_fresh by done. simpl.
    exact Hd2. }
  destruct Hk as (? & ? & ? & ? & ? & ? & ?). simpl in *.
  split_and!.
  - unfold kept. split_and!; try congruence; destruct Hcap; congruence.
  - by rewrite <- Hd3.
  - intros Hres. by rewrite <- Hd3; apply Heq.
  - intros k' r' Hne Hg. destruct (Hlook _ _ Hg) as [Hi Hdg].
    rewrite decide_False in Hdg by done.
    destruct (Hold _ _ Hdg) as [Hc Hi2]. split; [done|].
    rewrite Hi, <- Hi2. unfold item_at.
    rewrite list_lookup_insert_ne; [done|]. intros ->. by apply (Hfresh k').
Qed.

Lemma Item_load_from_key_some s k w it w2 :
  Item_load_from_key clock s k w = Ok (Some it, w2) ->
  key it = k /\ stored_okb s k (stored_value it) = true
  /\ 0 <= stored_size it /\ ticks w2 = S (ticks w).
Proof.
  unfold Item_load_from_key, Item__load_from_key.
  destruct s as [|dir ext]; simpl; [done|].
  destruct (bool_decide _); simpl; [|done]. unfold getsize. simpl.
  destruct (fs w !! _key_to_path dir ext k); simpl; [|done].
  intros [= <- <-]. simpl. split_and!; try done. unfold Qle; simpl. lia.
Qed.

(** [get_value] on a single tier. *)
Lemma get_value_single_inv d c k w v c' w' :
  _parent_cache c = None -> wf_tier c = true ->
  get_value getsizeof clock d c k w = Ok (v, c', w') ->
  kept c c'
  /\ drift c <= drift c'
  /\ (dict_get k (_item_dict c') <> None -> drift c' == drift c)
  /\ (forall k' r', k' <> k -> dict_get k' (_item_dict c') = Some r' ->
        dict_get k' (_item_dict c) = Some r'
        /\ item_at (heap c') r' = item_at (heap c) r').
Proof.
  intros Hp Hwf. destruct d as [|d]; [done|]. rewrite get_value_unfold.
  destruct (dict_get k (_item_dict c)) as [r|] eqn:Hget.
  - destruct (Item_restore clock (_store c) k (item_at (heap c) r) w)
      as [[[v1 it'] w1]|] eqn:Hres; [|done].
    simpl. intros [= <- <- <-].
    destruct (Item_restore_item _ _ _ _ _ _ _ _ Hres) as (Hk & Hsv & Hsz).
    unfold drift. rewrite index_size_set_item_same by done. simpl.
    split_and!; try lra.
    + unfold kept; simpl. split_and!; try done. by eapply set_item_same_wf.
    + intros k' r' Hne Hg. split; [done|]. unfold item_at.
      rewrite list_lookup_insert_ne; [done|]. intros ->.
      apply dict_get_Some in Hg, Hget.
      by pose proof (wf_ref_inj _ _ _ _ Hwf Hg Hget).
  - unfold has_parent. rewrite Hp. simpl.
    destruct (Item_load_from_key clock (_store c) k w) as [[[it|] w2]|] eqn:Hload;
      simpl; [| |done].
    2:{ intros [= <- <- <-]. split_and!; try (unfold drift; lra).
        - by apply kept_refl.
        - done. }
    destruct (Item_load_from_key_some _ _ _ _ _ Hload) as (Hk & Hsv & Hsz & _).
    destruct (put_prepare_spec c k Hwf)
      as (Hwf2 & Hget2 & Hfresh & Hnew & Hp2 & Hs2 & Hm2 & Hpol2 & Hold).
    pose proof (index_size_put_prepare c k Hwf) as Hd2.
    unfold put_prepare, put_ref in *. rewrite Hget in *. simpl in *.
    set (r := length (heap c)) in *.
    set (c2 := mkCache _ _ _ _ _ _ _ _ _ (heap c ++ [Item_new])) in *.
    destruct (_add_item getsizeof clock d (set_item c2 r it) r w2)
      as [[c3 w3]|] eqn:Hadd; [|done].
    simpl.
    destruct (Item_restore clock (_store c3) k (item_at (heap c3) r) w3)
      as [[[v1 it'] w4]|] eqn:Hres; [|done].
    simpl. intros [= <- <- <-].
    assert (Hit : heap (set_item c2 r it) !! r = Some it).
    { simpl. apply list_lookup_insert_eq. by eapply lookup_lt_Some. }
    destruct (add_item_single_inv d (set_item c2 r it) k r w2 c3 w3)
      as (Hk3 & _ & Hlook & Hle & Heq & _); try done.
    { by apply set_item_wf. }
    { eapply entry_okb_intro; eauto. }
    assert (Hd3 : drift (set_item c2 r it) == drift c).
    { unfold drift in *. rewrite index_size_set_item_fresh by done. exact Hd2. }
    destruct (Item_restore_item _ _ _ _ _ _ _ _ Hres) as (Hk' & Hsv' & Hsz').
    destruct Hk3 as (? & Hwf3 & ? & ? & ? & ? & ?). simpl in *.
    unfold drift in *. rewrite index_size_set_item_same by done. simpl.
    split_and!.
    + unfold kept; simpl. split_and!; try congruence.
      destruct (dict_get k (_item_dict c3)) as [r'|] eqn:Hg.
      * destruct (Hlook _ _ Hg) as [_ Hr']. rewrite decide_True in Hr' by done.
        subst r'. by eapply set_item_same_wf.
      * apply set_item_wf; [done|]. intros k' Hg'.
        destruct (Hlook _ _ Hg') as [_ Hr']. case_decide; [congruence|].
        by apply (Hfresh k').
    + by rewrite <- Hd3.
    + intros Hres'. by rewrite <- Hd3; apply Heq.
    + intros k' r' Hne Hg. destruct (Hlook _ _ Hg) as [Hi Hdg].
      rewrite decide_False in Hdg by done.
      destruct (Hold _ _ Hdg) as [Hc Hi2]. split; [done|].
      assert (r' <> r) by (intros ->; by apply (Hfresh k')).
      transitivity (item_at (heap c3) r').
      { unfold item_at; simpl. by rewrite list_lookup_insert_ne. }
      rewrite Hi, <- Hi2. unfold item_at; simpl.
      by rewrite list_lookup_insert_ne.
Qed.

End Single.

(** ** The stores *)

Lemma prefix_slash c s :
  String.prefix "/" (String c s) = bool_decide (c = "/"%char).
Proof.
  change (String.prefix "/" (String c s))
    with (match ascii_dec "/" c with
          | left _ => String.prefix "" s
          | right _ => false
          end).
  destruct (ascii_dec "/" c) as [<-|Hn].
  - rewrite bool_decide_eq_true_2 by done. by destruct s.
  - by rewrite bool_decide_eq_false_2 by congruence.
Qed.

Lemma head_of_path_no_sep p : has_sep p = false -> head_of_path p = "".
Proof.
  destruct p as [|c p]; [done|]. simpl.
  intros [Hc Hp]%orb_false_iff. by rewrite Hp, Hc.
Qed.

Lemma dirname_no_sep p : has_sep p = false -> dirname p = "".
Proof. intros H. unfold dirname. by rewrite head_of_path_no_sep. Qed.

Lemma path_join_empty b : path_join "" b = b.
Proof. unfold path_join. simpl. by destruct (String.prefix "/" b). Qed.

Section Stores.
Context (getsizeof : value -> N).

Lemma makedirs_step p w :
  p <> "" ->
  (if negb (path_exists p w) then makedirs p w else Ok w) = Ok w.
Proof.
  intros Hp. unfold makedirs. destruct (String.eqb_spec p ""); [done|].
  by destruct (negb _).
Qed.

Lemma file_store_value_ok dir ext k v b w :
  bytes_like v = Ok b -> dirname (_key_to_path dir ext k) <> "" ->
  store_value getsizeof (FileCacheStore dir ext) k v w
  = Ok (SPath (_key_to_path dir ext k), inject_Z (Z.of_nat (length b)),
        set_fs w (<[_key_to_path dir ext k := b]> (fs w))).
Proof.
  intros Hb Hd. cbn [store_value]. cbv zeta. rewrite makedirs_step by done.
  simpl. rewrite Hb. simpl. unfold getsize. simpl.
  by rewrite lookup_insert_eq.
Qed.








End Stores.

(** ** A single tier *)

Section Engine.
Context (getsizeof : value -> N) (clock : nat -> Q).

Lemma single_tier_step_drift d o c w c' w' :
  _parent_cache c = None -> wf_tier c = true ->
  run_op getsizeof clock d o c w = Ok (c', w') ->
  kept c c' /\ drift c <= drift c'
  /\ (op_key_survives o c' -> drift c' == drift c).
Proof.
  intros Hp Hwf Hrun.
  destruct o as [k|k v|k|e|b]; simpl in *.
  - destruct (get_value getsizeof clock d c k w) as [[[v c1] w1]|] eqn:Hg; [|done].
    simpl in Hrun. injection Hrun as <- <-.
    by destruct (get_value_single_inv _ _ _ _ _ _ _ _ _ Hp Hwf Hg) as (? & ? & ? & _).
  - by destruct (put_value_single_inv _ _ _ _ _ _ _ _ _ Hp Hwf Hrun) as (? & ? & ? & _).
  - destruct (remove_value_single_inv _ _ _ _ _ _ Hp Hwf Hrun) as [-> ->].
    pose proof (evict_keys_kept c w [k] Hp Hwf) as Hk.
    pose proof (evict_keys_drift [k] c w Hwf) as Hd. simpl in *.
    unfold drift. split_and!; [done|lra|intros _; lra].
  - destruct (trim_single_post _ _ _ _ _ _ _ _ Hp Hwf Hrun) as (? & Hd & _).
    split_and!; [done|lra|intros _; lra].
  - apply clear_single_inv in Hrun; [|done..].
    pose proof (evict_keys_kept c w (_item_dict c).*1 Hp Hwf) as Hk.
    pose proof (evict_keys_drift (_item_dict c).*1 c w Hwf) as Hd.
    rewrite <- Hrun in *. simpl in *.
    unfold drift. split_and!; [done|lra|intros _; lra].
Qed.


Lemma run_ops_inv d os : forall c w c' w',
  _parent_cache c = None -> wf_tier c = true ->
  run_ops getsizeof clock d os c w = Ok (c', w') ->
  kept c c' /\ (_size c <= index_size c -> _size c' <= index_size c').
Proof.
  unfold run_ops.
  induction os as [|o os IH]; intros c w c' w' Hp Hwf; simpl.
  - intros [= <- <-]. split; [by apply kept_refl|done].
  - destruct (run_op getsizeof clock d o c w) as [[c1 w1]|] eqn:Ho; [|done].
    simpl. intros Hrest.
    destruct (single_tier_step_drift _ _ _ _ _ _ Hp Hwf Ho) as (Hk1 & Hd1 & _).
    pose proof Hk1 as (Hp1 & Hwf1 & _).
    destruct (IH _ _ _ _ Hp1 Hwf1 Hrest) as [Hk2 Hs2].
    split; [by eapply kept_trans|].
    intros Hs. apply Hs2. unfold drift in Hd1. lra.
Qed.


Lemma trim_select_stop h l size extra mx :
  size + extra <= mx -> trim_select h l size extra mx = [].
Proof.
  intros Hle. rewrite trim_select_keys, trim_select_refs_stop; [done|].
  by apply Qlt_bool_false.
Qed.


Lemma evict_keys_all_empty c w :
  wf_tier c = true ->
  _item_dict (evict_keys c w (_item_dict c).*1).1 = []
  /\ _item_list (evict_keys c w (_item_dict c).*1).1 = [].
Proof.
  intros Hwf. pose proof (evict_keys_wf c w (_item_dict c).*1 Hwf) as Hwf'.
  assert (Hd : _item_dict (evict_keys c w (_item_dict c).*1).1 = []).
  { destruct (_item_dict (evict_keys c w (_item_dict c).*1).1)
      as [|[k r] l] eqn:E; [done|].
    assert (Hg : dict_get k (_item_dict (evict_keys c w (_item_dict c).*1).1)
                 = Some r).
    { rewrite E. simpl. by rewrite decide_True. }
    apply evict_keys_lookup in Hg as (Hg & _ & Hnin); [|done].
    exfalso. apply Hnin. apply dict_get_Some in Hg.
    by apply (list_elem_of_fmap_2 fst) in Hg. }
  split; [done|]. apply wf_tier_iff in Hwf' as (_ & _ & Hperm).
  rewrite Hd in Hperm. by apply Permutation_nil_r in Hperm.
Qed.

Lemma clear_loop_single d b ks : forall c w,
  _parent_cache c = None -> wf_tier c = true ->
  foldM (clear_body getsizeof clock (S d) b) (c, w) ks = Ok (evict_keys c w ks).
Proof.
  induction ks as [|k ks IH]; intros c w Hp Hwf; simpl; [done|].
  unfold has_parent. rewrite Hp. simpl.
  rewrite (remove_value_root d c k w Hp), remove_own_evict by done. simpl.
  apply IH; [by rewrite evict_key_parent | by apply evict_key_wf].
Qed.






End Engine.

(** ** A tier over a parent *)

Lemma remove_value_ok_absent d : forall c k w c' w',
  wf c = true -> remove_value d c k w = Ok (c', w') ->
  absent k c' /\ wf c' = true.
Proof.
  induction d as [|d IH]; intros c k w c' w' Hwf; [done|].
  rewrite wf_unfold in Hwf. apply andb_true_iff in Hwf as [Hwt Hwp].
  destruct (_parent_cache c) as [p|] eqn:Hp.
  - rewrite (remove_value_child _ _ p) by done.
    destruct (remove_value d p k w) as [[p1 w1]|] eqn:Hrp; [|done]. simpl.
    destruct (IH _ _ _ _ _ Hwp Hrp) as [Hab Hwf1].
    destruct (remove_own_total (set_parent c p1) k w1 Hwt)
      as (c1 & w2 & -> & Hget & Hwt1 & Hp1).
    intros [= <- <-].
    rewrite absent_unfold, wf_unfold, Hp1, Hwt1. simpl. auto.
  - rewrite remove_value_root by done.
    destruct (remove_own_total c k w Hwt) as (c1 & w2 & -> & Hget & Hwt1 & Hp1).
    intros [= <- <-].
    rewrite absent_unfold, wf_unfold, Hp1, Hp, Hwt1. simpl. auto.
Qed.

Section TwoTier.
Context (getsizeof : value -> N) (clock : nat -> Q).

Lemma get_value_resident_inv d c k r w v c' w' :
  wf_tier c = true -> dict_get k (_item_dict c) = Some r ->
  get_value getsizeof clock d c k w = Ok (v, c', w') ->
  exists it', c' = set_item c r it'
    /\ key it' = key (item_at (heap c) r)
    /\ stored_value it' = stored_value (item_at (heap c) r)
    /\ stored_size it' = stored_size (item_at (heap c) r)
    /\ wf_tier c' = true.
Proof.
  intros Hwf Hget. destruct d as [|d]; [done|].
  rewrite (get_value_resident _ _ _ _ _ r) by done.
  destruct (Item_restore clock (_store c) k (item_at (heap c) r) w)
    as [[[v1 it'] w1]|] eqn:Hres; [|done].
  simpl. intros [= <- <- <-].
  destruct (Item_restore_item _ _ _ _ _ _ _ _ Hres) as (Hk & Hsv & Hsz).
  exists it'. split_and!; try done. by eapply set_item_same_wf.
Qed.


Lemma two_tier_wf c p : two_tier c p -> wf c = true.
Proof.
  intros (Hp & Hpp & Hwt & Hwp).
  rewrite wf_unfold, Hp, wf_unfold, Hpp, Hwt, Hwp. done.
Qed.

(** [remove_value] on a two-tier chain. *)
Lemma remove_value_two_inv d c p k w c' w' :
  two_tier c p ->
  remove_value d c k w = Ok (c', w') ->
  c' = evict_key (set_parent c (evict_key p k)) k
  /\ two_tier c' (evict_key p k).
Proof.
  intros (Hp & Hpp & Hwt & Hwp). destruct d as [|d]; [done|].
  rewrite (remove_value_child _ _ p) by done.
  destruct (remove_value d p k w) as [[p1 w1]|] eqn:Hrp; [|done]. simpl.
  apply remove_value_single_inv in Hrp as [-> ->]; [|done..].
  rewrite remove_own_evict by done. intros [= <- <-]. split; [done|].
  unfold two_tier. rewrite evict_key_parent. simpl.
  rewrite evict_key_parent. split_and!; try done; by apply evict_key_wf.
Qed.

Lemma evict_key_lookup c k k' r' :
  wf_tier c = true ->
  dict_get k' (_item_dict (evict_key c k)) = Some r' ->
  k' <> k /\ dict_get k' (_item_dict c) = Some r'
  /\ item_at (heap (evict_key c k)) r' = item_at (heap c) r'.
Proof.
  intros Hwf Hg.
  destruct (evict_keys_lookup [k] c (mkWorld 0 ∅) k' r' Hwf Hg) as (? & ? & Hn).
  split_and!; try done. intros ->. apply Hn. left.
Qed.

Lemma evict_key_resident c k r :
  dict_get k (_item_dict c) = Some r -> evict_key c k = evict c k r.
Proof. unfold evict_key. by intros ->. Qed.

(** The per-key step of [trim] on a two-tier chain, for a resident key. *)
Lemma trim_body_two_inv d c p k r w c' w' :
  two_tier c p -> dict_get k (_item_dict c) = Some r ->
  trim_body getsizeof clock d (c, w) k = Ok (c', w') ->
  exists p',
    two_tier c' p' /\ kept p p'
    /\ _item_dict c' = dict_del k (_item_dict c)
    /\ heap c' = <[r := Item_new]> (heap c)
    /\ _store c' = _store c /\ _max_size c' = _max_size c
    /\ _policy c' = _policy c
    /\ drift c' == drift c /\ drift p <= drift p'
    /\ (forall k' r', dict_get k' (_item_dict p') = Some r' ->
          k' = k \/ dict_get k' (_item_dict p) = Some r').
Proof.
  intros Htwo Hget. pose proof Htwo as (Hp & Hpp & Hwt & Hwp).
  unfold trim_body, has_parent. rewrite Hp.
  destruct (get_value getsizeof clock d c k w) as [[[v c2] w2]|] eqn:Hg; [|done].
  simpl.
  destruct (get_value_resident_inv _ _ _ _ _ _ _ _ Hwt Hget Hg)
    as (it' & -> & Hk & Hsv & Hsz & Hwt2).
  destruct (remove_value d (set_item c r it') k w2) as [[c3 w3]|] eqn:Hrm; [|done].
  simpl.
  assert (Htwo2 : two_tier (set_item c r it') p) by (by split_and!).
  destruct (remove_value_two_inv _ _ _ _ _ _ _ Htwo2 Hrm) as [-> Htwo3].
  set (p1 := evict_key p k) in *.
  assert (Hc3 : evict_key (set_parent (set_item c r it') p1) k
                = evict (set_parent (set_item c r it') p1) k r)
    by (by apply evict_key_resident).
  rewrite Hc3 in *. clear Hc3.
  set (c3 := evict (set_parent (set_item c r it') p1) k r) in *.
  assert (Hdrift3 : drift c3 == drift c).
  { unfold drift, c3. rewrite index_size_evict by done. simpl.
    change (index_size (set_parent (set_item c r it') p1))
      with (index_size (set_item c r it')).
    rewrite index_size_set_item_same by done.
    destruct (wf_entry _ _ _ Hwt Hget) as (_ & _ & _ & Hlt & _).
    rewrite !(item_at_lookup (<[r:=it']> (heap c)) r it')
      by (by apply list_lookup_insert_eq).
    lra. }
  assert (Hheap3 : heap c3 = <[r := Item_new]> (heap c)).
  { unfold c3; simpl. by rewrite list_insert_insert_eq. }
  assert (Hp1 : kept p p1 /\ drift p1 == drift p).
  { split; [apply (evict_keys_kept p w [k] Hpp Hwp)|].
    unfold drift. by apply evict_key_drift. }
  destruct Hp1 as [Hkp1 Hdp1].
  assert (Hl1 : forall k' r', dict_get k' (_item_dict p1) = Some r' ->
                  dict_get k' (_item_dict p) = Some r').
  { intros k' r' Hg'. by destruct (evict_key_lookup _ _ _ _ Hwp Hg') as (_ & ? & _). }
  destruct (truthy v).
  - unfold on_parent. change (_parent_cache c3) with (Some p1). cbv beta iota.
    destruct (put_value getsizeof clock d p1 k v w3) as [[p2 w4]|] eqn:Hput;
      simpl; [|done].
    intros [= <- <-].
    destruct Htwo3 as (_ & Hpp1 & Hwt3 & Hwp1).
    destruct (put_value_single_inv _ _ _ _ _ _ _ _ _ Hpp1 Hwp1 Hput)
      as (Hk2 & Hle2 & _ & Hl2).
    exists p2. pose proof Hk2 as (Hpp2 & Hwp2 & _).
    split_and!; try done.
    + by eapply kept_trans.
    + rewrite <- Hdp1. done.
    + intros k' r' Hg'. destruct (decide (k' = k)) as [->|Hne]; [by left|].
      right. apply Hl1. by apply (Hl2 k' r').
  - intros [= <- <-]. exists p1. split_and!; try done.
    + rewrite Hdp1. lra.
    + intros k' r' Hg'. right. by apply Hl1.
Qed.

(** The second loop of [trim] on a two-tier chain, over distinct resident
    keys. *)
Lemma trim_loop_two_inv d ks : forall c p w c' w',
  two_tier c p -> NoDup ks ->
  (forall k, k ∈ ks -> dict_get k (_item_dict c) <> None) ->
  foldM (trim_body getsizeof clock d) (c, w) ks = Ok (c', w') ->
  exists p',
    two_tier c' p' /\ kept p p'
    /\ _store c' = _store c /\ _max_size c' = _max_size c
    /\ _policy c' = _policy c
    /\ drift c' == drift c /\ drift p <= drift p'
    /\ (forall k r, dict_get k (_item_dict c') = Some r ->
          dict_get k (_item_dict c) = Some r
          /\ item_at (heap c') r = item_at (heap c) r /\ k ∉ ks)
    /\ (forall r, item_at (heap c') r = item_at (heap c) r
                  \/ item_at (heap c') r = Item_new)
    /\ (forall k r, dict_get k (_item_dict p') = Some r ->
          k ∈ ks \/ dict_get k (_item_dict p) = Some r).
Proof.
  induction ks as [|k0 ks IH]; intros c p w c' w' Htwo Hnd Hres.
  - simpl. intros [= <- <-]. exists p. pose proof Htwo as (? & ? & ? & ?).
    split_and!;
      first [done | by apply kept_refl | apply Qle_refl | idtac].
    + intros k r Hg. split_and!; [done..|apply not_elem_of_nil].
    + intros r. by left.
    + intros k r Hg. by right.
  - apply NoDup_cons in Hnd as [Hk0 Hnd].
    change (foldM (trim_body getsizeof clock d) (c, w) (k0 :: ks))
      with (trim_body getsizeof clock d (c, w) k0
            ≫= fun s' => foldM (trim_body getsizeof clock d) s' ks).
    destruct (trim_body getsizeof clock d (c, w) k0) as [[c1 w1]|] eqn:Hstep;
      [|done].
    simpl. intros Hrest.
    destruct (dict_get k0 (_item_dict c)) as [r0|] eqn:Hget0;
      [|by destruct (Hres k0 ltac:(left))].
    pose proof Htwo as (Hp & Hpp & Hwt & Hwp).
    destruct (trim_body_two_inv _ _ _ _ _ _ _ _ Htwo Hget0 Hstep)
      as (p1 & Htwo1 & Hkp1 & Hd1 & Hh1 & Hs1 & Hm1 & Hpol1 & Hdr1 & Hdp1 & Hl1).
    destruct (IH c1 p1 w1 c' w' Htwo1 Hnd) as
      (p' & Htwo' & Hkp' & Hs' & Hm' & Hpol' & Hdr' & Hdp' & Hlc & Hhc & Hlp);
      [|done|].
    { intros k Hk. rewrite Hd1. rewrite dict_get_del_ne; [apply Hres; by right|].
      intros ->. done. }
    exists p'. split_and!; try congruence.
    + by eapply kept_trans.
    + lra.
    + lra.
    + intros k r Hg. destruct (Hlc _ _ Hg) as (Hg1 & Hi1 & Hn1).
      rewrite Hd1 in Hg1.
      assert (k0 <> k).
      { intros ->. rewrite dict_get_del_eq in Hg1; [done|].
        by apply wf_tier_iff in Hwt as [? _]. }
      rewrite dict_get_del_ne in Hg1 by done. split_and!; [done| |].
      * rewrite Hi1, Hh1. unfold item_at. rewrite list_lookup_insert_ne; [done|].
        intros ->. apply dict_get_Some in Hget0, Hg1.
        by pose proof (wf_ref_inj _ _ _ _ Hwt Hget0 Hg1).
      * apply not_elem_of_cons. split; [congruence|done].
    + intros r. destruct (Hhc r) as [->| ->]; [|by right].
      rewrite Hh1. unfold item_at. destruct (decide (r0 = r)) as [->|Hne].
      * destruct (decide (r < length (heap c))%nat).
        -- right. by rewrite list_lookup_insert_eq.
        -- left. by rewrite list_insert_ge by lia.
      * left. by rewrite list_lookup_insert_ne.
    + intros k r Hg. destruct (Hlp _ _ Hg) as [Hin|Hg1]; [left; by right|].
      destruct (Hl1 _ _ Hg1) as [->|Hg2]; [left; by left|by right].
Qed.

Lemma trim_select_resident c e :
  wf_tier c = true ->
  let ks := trim_select (heap c) (sorted_items c) (_size c) e (_max_size c) in
  NoDup ks /\ forall k, k ∈ ks -> dict_get k (_item_dict c) <> None.
Proof.
  intros Hwf ks. unfold ks. rewrite trim_select_keys.
  destruct (trim_select_refs_prefix (heap c) (sorted_items c) (_size c) e
              (_max_size c)) as [n ->].
  assert (Hsub : forall x, x ∈ take n (sorted_items c) -> x ∈ _item_list c).
  { intros x Hx. apply elem_of_take in Hx as (i & Hx & _).
    apply list_elem_of_lookup_2 in Hx. unfold sorted_items in Hx.
    by rewrite sort_by_perm in Hx. }
  split.
  - apply NoDup_fmap_2_strong.
    + intros r1 r2 H1 H2 Heq.
      destruct (wf_item c r1 Hwf (Hsub _ H1)) as [Hg1 _].
      destruct (wf_item c r2 Hwf (Hsub _ H2)) as [Hg2 _].
      rewrite Heq in Hg1. congruence.
    + eapply sublist_NoDup; [|apply sublist_take].
      unfold sorted_items. rewrite sort_by_perm.
      pose proof (wf_refs_NoDup c Hwf) as Hnd.
      pose proof Hwf as (_ & _ & Hperm)%wf_tier_iff. by rewrite Hperm.
  - intros k Hk. apply list_elem_of_fmap in Hk as [r [-> Hr]].
    destruct (wf_item c r Hwf (Hsub _ Hr)) as [Hg _]. by rewrite Hg.
Qed.

(** [trim] on a two-tier chain. *)
Lemma trim_two_inv d c p e w c' w' :
  two_tier c p ->
  trim getsizeof clock d c e w = Ok (c', w') ->
  exists p',
    two_tier c' p' /\ kept p p'
    /\ _store c' = _store c /\ _max_size c' = _max_size c
    /\ _policy c' = _policy c
    /\ drift c' == drift c /\ drift p <= drift p'
    /\ (forall k r, dict_get k (_item_dict c') = Some r ->
          dict_get k (_item_dict c) = Some r
          /\ item_at (heap c') r = item_at (heap c) r)
    /\ (forall r, item_at (heap c') r = item_at (heap c) r
                  \/ item_at (heap c') r = Item_new)
    /\ (forall k r, dict_get k (_item_dict p') = Some r ->
          (dict_get k (_item_dict c') = None
           /\ dict_get k (_item_dict c) <> None)
          \/ dict_get k (_item_dict p) = Some r).
Proof.
  intros Htwo. pose proof Htwo as (Hp & Hpp & Hwt & Hwp).
  destruct d as [|d]; [done|]. rewrite trim_unfold. intros Hloop.
  destruct (trim_select_resident c e Hwt) as [Hnd Hres].
  apply trim_loop_two_inv with (p := p) in Hloop; [| |done|done].
  2:{ split_and!; try done. by apply sorted_wf. }
  destruct Hloop as (p' & ? & ? & ? & ? & ? & Hdr & ? & Hlc & Hh & Hlp).
  exists p'. split_and!; try done.
  - intros k r Hg. by destruct (Hlc _ _ Hg) as (? & ? & _).
  - intros k r Hg. destruct (Hlp _ _ Hg) as [Hin|Hg1]; [left|by right].
    split; [|by apply Hres].
    destruct (dict_get k (_item_dict c')) as [r'|] eqn:E; [|done].
    by destruct (Hlc _ _ E) as (_ & _ & ?).
Qed.

(** [_add_item] on a two-tier chain. *)
Lemma add_item_two_inv d c p k r w c' w' :
  two_tier c p ->
  dict_get k (_item_dict c) = None -> entry_okb c (k, r) = true ->
  _add_item getsizeof clock d c r w = Ok (c', w') ->
  exists p',
    two_tier c' p' /\ kept p p'
    /\ _store c' = _store c /\ _max_size c' = _max_size c
    /\ _policy c' = _policy c
    /\ drift c <= drift c' /\ drift p <= drift p'
    /\ (forall k' r', dict_get k' (_item_dict c') = Some r' ->
          item_at (heap c') r' = item_at (heap c) r'
          /\ (if decide (k' = k) then r' = r
              else dict_get k' (_item_dict c) = Some r'))
    /\ (forall k' r', dict_get k' (_item_dict p') = Some r' ->
          (dict_get k' (_item_dict c') = None
           /\ (k' = k \/ dict_get k' (_item_dict c) <> None))
          \/ dict_get k' (_item_dict p) = Some r').
Proof.
  intros Htwo Hget Hok. pose proof Htwo as (Hp & Hpp & Hwt & Hwp).
  destruct (entry_okb_inv _ _ _ Hok) as (it & Hit & Hk & Hsv & Hsz).
  destruct d as [|d]; [done|].
  rewrite add_item_unfold. cbv zeta. rewrite (item_at_lookup _ _ _ Hit), Hk.
  pose proof (add_wf c k r Hwt Hget Hok) as Hwf1.
  pose proof (index_size_add c k r) as Hidx.
  rewrite (item_at_lookup _ _ _ Hit) in Hidx.
  rewrite dict_set_absent in * by done.
  set (c1 := set_index c (_item_dict c ++ [(k, r)])%list
                       (_item_list c ++ [r])%list) in *.
  assert (Hc1 : forall k' r', dict_get k' (_item_dict c1) = Some r' ->
            if decide (k' = k) then r' = r
            else dict_get k' (_item_dict c) = Some r').
  { intros k' r'. unfold c1; simpl. rewrite <- dict_set_absent by done.
    case_decide; subst.
    - rewrite dict_get_set_eq. congruence.
    - by rewrite dict_get_set_ne. }
  destruct (Qlt_bool (_max_size c1) (_size c1 + stored_size it)).
  - destruct (trim getsizeof clock d c1 (stored_size it) w) as [[c2 w2]|] eqn:Ht;
      [|done].
    simpl. intros [= <- <-].
    assert (Htwo1 : two_tier c1 p) by (by split_and!).
    destruct (trim_two_inv _ _ _ _ _ _ _ Htwo1 Ht)
      as (p' & Htwo2 & Hkp & Hs2 & Hm2 & Hpol2 & Hd2 & Hdp & Hl2 & Hh2 & Hlp).
    exists p'. unfold drift in *. simpl in *.
    change (index_size (set_size c2 ?x)) with (index_size c2).
    assert (Hheap : item_at (heap c2) r = it \/ item_at (heap c2) r = Item_new).
    { destruct (Hh2 r) as [->| ->]; [left|by right]. by apply item_at_lookup. }
    destruct Htwo2 as (? & ? & ? & ?).
    split_and!; try done.
    + destruct Hheap as [->| ->]; simpl; lra.
    + intros k' r' Hg. destruct (Hl2 _ _ Hg) as [Hg1 Hi]. split; [done|].
      by apply Hc1.
    + intros k' r' Hg. destruct (Hlp _ _ Hg) as [[Hn Hr]|Hg1]; [left|by right].
      split; [done|]. destruct (dict_get k' (_item_dict c1)) as [r1|] eqn:E;
        [|done].
      apply Hc1 in E. case_decide; [by left|right; congruence].
  - simpl. intros [= <- <-]. exists p. unfold drift in *. simpl.
    change (index_size (set_size c1 ?x)) with (index_size c1).
    split_and!;
      first [done | by apply kept_refl | apply Qle_refl | idtac].
    + fold c1. rewrite (item_at_lookup _ _ _ Hit). lra.
    + intros k' r' Hg. split; [done|]. by apply Hc1.
    + intros k' r' Hg. by right.
Qed.

Lemma put_value_child d c p k v w :
  _parent_cache c = Some p -> wf_tier c = true ->
  put_value getsizeof clock (S d) c k v w =
  '(p', w1) ← remove_value d p k w;
  '(it', w3) ← Item_store getsizeof clock (_store c) k v Item_new
                  (discard_key_world c k w1);
  _add_item getsizeof clock d
    (set_item (put_prepare (set_parent c p') k) (put_ref c k) it')
    (put_ref c k) w3.
Proof.
  intros Hp Hwf. rewrite put_value_unfold. unfold has_parent, on_parent.
  rewrite Hp. destruct (remove_value d p k w) as [[p1 w1]|]; [|done]. simpl.
  destruct (put_prepare_spec c k Hwf) as (_ & _ & _ & Hnew & _ & Hst & _).
  unfold put_prepare, put_ref, discard_key_world in *. simpl.
  destruct (dict_get k (_item_dict c)) as [r|] eqn:Hget.
  - destruct (wf_entry _ _ _ Hwf Hget) as (Hk & Hsv & _ & Hlt & Hin).
    unfold _remove_item, dict_pop, list_remove_item. simpl.
    rewrite Hk, Hget. simpl.
    rewrite bool_decide_eq_true_2 by done. simpl. unfold Item_discard.
    destruct (discard_value_world _ k _ w1 Hsv) as [sv' ->]. simpl.
    rewrite (item_at_lookup (<[r:=Item_new]> (heap c)) r Item_new)
      by (by apply list_lookup_insert_eq). done.
  - simpl in *. by rewrite (item_at_lookup _ _ _ Hnew).
Qed.

Lemma disjoint_intro c p :
  _parent_cache c = Some p ->
  (forall k r r', dict_get k (_item_dict c) = Some r ->
                  dict_get k (_item_dict p) = Some r' -> False) ->
  disjoint_tiers c.
Proof.
  intros Hp H q k Hq Hres. rewrite Hp in Hq. injection Hq as <-.
  destruct (dict_get k (_item_dict c)) as [r|] eqn:E; [|done].
  destruct (dict_get k (_item_dict p)) as [r'|] eqn:E'; [|done].
  by destruct (H _ _ _ E E').
Qed.

Lemma disjoint_elim c p k r r' :
  disjoint_tiers c -> _parent_cache c = Some p ->
  dict_get k (_item_dict c) = Some r -> dict_get k (_item_dict p) = Some r' ->
  False.
Proof.
  intros Hd Hp Hc Hpk. specialize (Hd p k Hp). rewrite Hc, Hpk in Hd.
  by discriminate Hd.
Qed.

Lemma put_value_two_inv d c p k v w c' w' :
  two_tier c p ->
  put_value getsizeof clock d c k v w = Ok (c', w') ->
  exists p', kept_two c p c' p'.
Proof.
  intros Htwo. pose proof Htwo as (Hp & Hpp & Hwt & Hwp).
  destruct d as [|d]; [done|]. rewrite (put_value_child _ _ p) by done.
  destruct (remove_value d p k w) as [[p1 w1]|] eqn:Hrm; [|done]. simpl.
  apply remove_value_single_inv in Hrm as [-> ->]; [|done..].
  set (p1 := evict_key p k) in *. set (w1 := discard_key_world p k w) in *.
  rewrite Item_store_new.
  destruct (store_value _ _ _ _ _) as [[[sv sz] w3]|] eqn:Hst; [|done].
  simpl. intros Hadd.
  assert (Hwt1 : wf_tier (set_parent c p1) = true) by exact Hwt.
  destruct (put_prepare_spec (set_parent c p1) k Hwt1)
    as (Hwf2 & Hget2 & Hfresh & Hnew & Hp2 & Hs2 & Hm2 & Hpol2 & Hold).
  pose proof (index_size_put_prepare (set_parent c p1) k Hwt1) as Hd2.
  change (put_ref c k) with (put_ref (set_parent c p1) k) in *.
  set (c2 := put_prepare (set_parent c p1) k) in *.
  set (r := put_ref (set_parent c p1) k) in *.
  set (it' := mkItem k (Some sv) sz 0 _ 1) in *.
  assert (Hit : heap (set_item c2 r it') !! r = Some it').
  { simpl. apply list_lookup_insert_eq. by eapply lookup_lt_Some. }
  destruct (store_value_ok _ _ _ _ _ _ _ _ Hst) as [Hsv Hsz].
  assert (Hwp1 : wf_tier p1 = true) by (by apply evict_key_wf).
  assert (Hpp1 : _parent_cache p1 = None) by (by unfold p1; rewrite evict_key_parent).
  destruct (add_item_two_inv d (set_item c2 r it') p1 k r w3 c' w')
    as (p' & Htwo' & Hkp & Hs' & Hm' & Hpol' & Hle & Hlep & Hlc & Hlp); try done.
  { unfold two_tier. simpl. split_and!; try done. by apply set_item_wf. }
  { eapply entry_okb_intro; eauto. simpl. by rewrite Hs2. }
  assert (Hd3 : drift (set_item c2 r it') == drift c).
  { unfold drift in *. rewrite index_size_set_item_fresh by done. simpl.
    exact Hd2. }
  assert (Hdp1 : drift p1 == drift p) by (unfold drift; by apply evict_key_drift).
  destruct (evict_keys_kept p w [k] Hpp Hwp) as (_ & _ & Hsp1 & Hmp1 & _).
  destruct Hkp as (_ & _ & Hsp' & Hmp' & _). simpl in *.
  fold p1 in Hsp1, Hmp1.
  exists p'. unfold kept_two. split_and!; try congruence.
  - lra.
  - lra.
  - intros Hdis. pose proof Htwo' as (Hp' & _).
    apply (disjoint_intro _ _ Hp'). intros k' r1 r2 Hc' Hpk'.
    destruct (Hlc _ _ Hc') as [_ Hfrom].
    destruct (Hlp _ _ Hpk') as [[Hn _]|Hp1]; [congruence|].
    apply evict_key_lookup in Hp1 as (Hne & Hpk & _); [|done].
    rewrite decide_False in Hfrom by done.
    destruct (Hold _ _ Hfrom) as [Hck _]. simpl in Hck.
    by eapply (disjoint_elim c p k').
Qed.

Lemma get_value_two_inv d c p k w v c' w' :
  two_tier c p -> _store c = MemoryCacheStore ->
  get_value getsizeof clock d c k w = Ok (v, c', w') ->
  exists p', kept_two c p c' p'.
Proof.
  intros Htwo Hmem. pose proof Htwo as (Hp & Hpp & Hwt & Hwp).
  destruct (dict_get k (_item_dict c)) as [r|] eqn:Hget.
  - intros Hg.
    destruct (get_value_resident_inv _ _ _ _ _ _ _ _ Hwt Hget Hg)
      as (it' & -> & _ & _ & Hsz & Hwt2).
    exists p. unfold kept_two, two_tier, drift.
    rewrite index_size_set_item_same by done. simpl.
    split_and!; try done; apply Qle_refl.
  - destruct d as [|d]; [done|]. rewrite get_value_unfold, Hget.
    unfold has_parent, on_parent. rewrite Hp.
    destruct (get_value getsizeof clock d p k w) as [[[item p1] w1]|] eqn:Hgp;
      [|done].
    simpl. destruct (truthy item); [done|]. simpl.
    unfold Item_load_from_key. rewrite Hmem. simpl. intros [= <- <- <-].
    destruct (get_value_single_inv _ _ _ _ _ _ _ _ _ Hpp Hwp Hgp)
      as ((Hpp1 & Hwp1 & Hsp1 & Hmp1 & _) & Hle & _ & Hl).
    exists p1. unfold kept_two, two_tier. simpl.
    split_and!; try done; try apply Qle_refl.
    intros Hdis. apply (disjoint_intro (set_parent c p1) p1); [done|]. simpl.
    intros k' r1 r2 Hc' Hpk'.
    assert (k' <> k) by (intros ->; congruence).
    destruct (Hl _ _ H Hpk') as [Hpk _].
    by eapply (disjoint_elim c p k').
Qed.

Lemma remove_value_two_kept d c p k w c' w' :
  two_tier c p ->
  remove_value d c k w = Ok (c', w') ->
  exists p', kept_two c p c' p'.
Proof.
  intros Htwo Hrm. pose proof Htwo as (Hp & Hpp & Hwt & Hwp).
  destruct (remove_value_two_inv _ _ _ _ _ _ _ Htwo Hrm) as [-> Htwo'].
  exists (evict_key p k).
  destruct (evict_keys_kept p w [k] Hpp Hwp) as (_ & _ & Hsp1 & Hmp1 & _).
  assert (Hwt1 : wf_tier (set_parent c (evict_key p k)) = true) by exact Hwt.
  destruct (evict_keys_fields (set_parent c (evict_key p k)) w [k])
    as (Hs & _ & _ & Hm & _).
  pose proof (evict_key_drift (set_parent c (evict_key p k)) k Hwt1) as Hd.
  pose proof (evict_key_drift p k Hwp) as Hdp.
  simpl in *. unfold kept_two, drift in *.
  change (index_size (set_parent c (evict_key p k))) with (index_size c) in Hd.
  split_and!; try done; try lra.
  intros Hdis. pose proof Htwo' as (Hp' & _).
  apply (disjoint_intro _ _ Hp'). intros k' r1 r2 Hc' Hpk'.
  apply evict_key_lookup in Hc' as (_ & Hc & _); [|done].
  apply evict_key_lookup in Hpk' as (_ & Hpk & _); [|done].
  simpl in Hc. by eapply (disjoint_elim c p k').
Qed.

Lemma trim_two_kept d c p e w c' w' :
  two_tier c p ->
  trim getsizeof clock d c e w = Ok (c', w') ->
  exists p', kept_two c p c' p'.
Proof.
  intros Htwo Ht. pose proof Htwo as (Hp & Hpp & Hwt & Hwp).
  destruct (trim_two_inv _ _ _ _ _ _ _ Htwo Ht)
    as (p' & Htwo' & Hkp & Hs & Hm & _ & Hd & Hdp & Hlc & _ & Hlp).
  destruct Hkp as (_ & _ & ? & ? & _).
  exists p'. unfold kept_two. split_and!; try done; try lra.
  intros Hdis. pose proof Htwo' as (Hp' & _).
  apply (disjoint_intro _ _ Hp'). intros k' r1 r2 Hc' Hpk'.
  destruct (Hlc _ _ Hc') as [Hc _].
  destruct (Hlp _ _ Hpk') as [[Hn _]|Hpk]; [congruence|].
  by eapply (disjoint_elim c p k').
Qed.

(** The per-key step of [clear] on a two-tier chain, for a resident key. *)
Lemma clear_body_two_inv d b c p k r w c' w' :
  two_tier c p -> dict_get k (_item_dict c) = Some r ->
  clear_body getsizeof clock d b (c, w) k = Ok (c', w') ->
  exists p',
    two_tier c' p'
    /\ _item_dict c' = dict_del k (_item_dict c)
    /\ _store c' = _store c /\ _store p' = _store p
    /\ _max_size c' = _max_size c /\ _max_size p' = _max_size p
    /\ drift c' == drift c /\ drift p <= drift p'
    /\ (forall k' r', dict_get k' (_item_dict p') = Some r' ->
          dict_get k' (_item_dict p) = Some r').
Proof.
  intros Htwo Hget. pose proof Htwo as (Hp & Hpp & Hwt & Hwp).
  assert (Hrem : forall c3 p3 w3,
    two_tier c3 p3 -> dict_get k (_item_dict c3) = Some r ->
    remove_value d c3 k w3 = Ok (c', w') ->
    two_tier c' (evict_key p3 k)
    /\ _item_dict c' = dict_del k (_item_dict c3)
    /\ _store c' = _store c3 /\ _store (evict_key p3 k) = _store p3
    /\ _max_size c' = _max_size c3 /\ _max_size (evict_key p3 k) = _max_size p3
    /\ drift c' == drift c3 /\ drift (evict_key p3 k) == drift p3
    /\ (forall k' r', dict_get k' (_item_dict (evict_key p3 k)) = Some r' ->
          k' <> k /\ dict_get k' (_item_dict p3) = Some r')).
  { intros c3 p3 w3 Htwo3 Hget3 Hrm.
    pose proof Htwo3 as (Hp3 & Hpp3 & Hwt3 & Hwp3).
    destruct (remove_value_two_inv _ _ _ _ _ _ _ Htwo3 Hrm) as [-> Htwo'].
    destruct (evict_keys_kept p3 w [k] Hpp3 Hwp3) as (_ & _ & Hsp1 & Hmp1 & _).
    assert (Hwt1 : wf_tier (set_parent c3 (evict_key p3 k)) = true) by exact Hwt3.
    destruct (evict_keys_fields (set_parent c3 (evict_key p3 k)) w [k])
      as (Hs & _ & _ & Hm & _).
    pose proof (evict_key_drift (set_parent c3 (evict_key p3 k)) k Hwt1) as Hd.
    pose proof (evict_key_drift p3 k Hwp3) as Hdp.
    simpl in *. unfold drift.
    change (index_size (set_parent c3 (evict_key p3 k))) with (index_size c3) in Hd.
    split_and!; try done.
    - unfold evict_key at 1. simpl. by rewrite Hget3.
    - intros k' r' Hg. by destruct (evict_key_lookup _ _ _ _ Hwp3 Hg) as (? & ? & _). }
  unfold clear_body, has_parent. rewrite Hp. simpl.
  destruct b; simpl.
  - intros Hrm. destruct (Hrem c p w Htwo Hget Hrm)
      as (? & ? & ? & ? & ? & ? & ? & Hdp & Hl).
    exists (evict_key p k). split_and!; try done; try lra.
    intros k' r' Hg. by destruct (Hl _ _ Hg).
  - destruct (get_value getsizeof clock d c k w) as [[[v c2] w2]|] eqn:Hg; [|done].
    simpl.
    destruct (get_value_resident_inv _ _ _ _ _ _ _ _ Hwt Hget Hg)
      as (it' & -> & _ & _ & Hsz & Hwt2).
    assert (Hd2 : drift (set_item c r it') == drift c).
    { unfold drift. by rewrite index_size_set_item_same by done. }
    destruct (truthy v).
    + unfold on_parent. simpl. rewrite Hp.
      destruct (put_value getsizeof clock d p k v w2) as [[p1 w3]|] eqn:Hput;
        simpl; [|done].
      destruct (put_value_single_inv _ _ _ _ _ _ _ _ _ Hpp Hwp Hput)
        as ((Hpp1 & Hwp1 & Hsp1 & Hmp1 & _) & Hle & _ & Hl1).
      intros Hrm.
      destruct (Hrem (set_parent (set_item c r it') p1) p1 w3)
        as (? & ? & ? & ? & ? & ? & Hdc & Hdp & Hl); try done.
      exists (evict_key p1 k). simpl in *.
      change (drift (set_parent (set_item c r it') p1))
        with (drift (set_item c r it')) in Hdc.
      split_and!; try done; try congruence; try lra.
      intros k' r' Hg'. destruct (Hl _ _ Hg') as [Hne Hg1].
      by destruct (Hl1 _ _ Hne Hg1).
    + simpl. intros Hrm.
      destruct (Hrem (set_item c r it') p w2)
        as (? & ? & ? & ? & ? & ? & Hdc & Hdp & Hl); try done.
      exists (evict_key p k). simpl in *.
      split_and!; try done; try lra.
      intros k' r' Hg'. by destruct (Hl _ _ Hg').
Qed.

Lemma clear_loop_two_inv d b ks : forall c p w c' w',
  two_tier c p -> NoDup ks ->
  (forall k, k ∈ ks -> dict_get k (_item_dict c) <> None) ->
  foldM (clear_body getsizeof clock d b) (c, w) ks = Ok (c', w') ->
  exists p',
    two_tier c' p'
    /\ _store c' = _store c /\ _store p' = _store p
    /\ _max_size c' = _max_size c /\ _max_size p' = _max_size p
    /\ drift c' == drift c /\ drift p <= drift p'
    /\ (forall k r, dict_get k (_item_dict c') = Some r ->
          dict_get k (_item_dict c) = Some r)
    /\ (forall k r, dict_get k (_item_dict p') = Some r ->
          dict_get k (_item_dict p) = Some r).
Proof.
  induction ks as [|k0 ks IH]; intros c p w c' w' Htwo Hnd Hres.
  - simpl. intros [= <- <-]. exists p.
    split_and!; first [done | apply Qle_refl].
  - apply NoDup_cons in Hnd as [Hk0 Hnd].
    change (foldM (clear_body getsizeof clock d b) (c, w) (k0 :: ks))
      with (clear_body getsizeof clock d b (c, w) k0
            ≫= fun s' => foldM (clear_body getsizeof clock d b) s' ks).
    destruct (clear_body getsizeof clock d b (c, w) k0) as [[c1 w1]|] eqn:Hstep;
      [|done].
    simpl. intros Hrest.
    destruct (dict_get k0 (_item_dict c)) as [r0|] eqn:Hget0;
      [|by destruct (Hres k0 ltac:(left))].
    pose proof Htwo as (Hp & Hpp & Hwt & Hwp).
    destruct (clear_body_two_inv _ _ _ _ _ _ _ _ _ Htwo Hget0 Hstep)
      as (p1 & Htwo1 & Hd1 & ? & ? & ? & ? & ? & ? & Hl1).
    destruct (IH c1 p1 w1 c' w' Htwo1 Hnd) as
      (p' & Htwo' & ? & ? & ? & ? & ? & ? & Hlc & Hlp); [|done|].
    { intros k Hk. rewrite Hd1. rewrite dict_get_del_ne; [apply Hres; by right|].
      intros ->. done. }
    exists p'. split_and!; try congruence; try lra.
    + intros k r Hg. specialize (Hlc _ _ Hg). rewrite Hd1 in Hlc.
      destruct (decide (k0 = k)) as [->|Hne].
      * rewrite dict_get_del_eq in Hlc; [done|].
        by apply wf_tier_iff in Hwt as [? _].
      * by rewrite dict_get_del_ne in Hlc.
    + intros k r Hg. by apply Hl1, Hlp.
Qed.

Lemma clear_two_kept d c p b w c' w' :
  two_tier c p ->
  clear getsizeof clock d c b w = Ok (c', w') ->
  exists p', kept_two c p c' p'.
Proof.
  intros Htwo. pose proof Htwo as (Hp & Hpp & Hwt & Hwp).
  destruct d as [|d]; [done|]. rewrite clear_unfold.
  unfold has_parent, on_parent. rewrite Hp. simpl.
  assert (Hloop : forall p1 w1,
    kept p p1 -> drift p1 == drift p ->
    (forall k r, dict_get k (_item_dict p1) = Some r ->
                 dict_get k (_item_dict p) = Some r) ->
    foldM (clear_body getsizeof clock d b) (set_parent c p1, w1)
          (_item_dict c).*1 = Ok (c', w') ->
    exists p', kept_two c p c' p').
  { intros p1 w1 (Hpp1 & Hwp1 & Hsp1 & Hmp1 & _) Hdp1 Hl1 Hfold.
    apply clear_loop_two_inv with (p := p1) in Hfold.
    - destruct Hfold as (p' & Htwo' & ? & ? & ? & ? & Hdc & Hdp & Hlc & Hlp).
      exists p'. unfold kept_two. simpl in *.
      change (drift (set_parent c p1)) with (drift c) in Hdc.
      split_and!; try congruence; try lra.
      intros Hdis. pose proof Htwo' as (Hp' & _).
      apply (disjoint_intro _ _ Hp'). intros k' r1 r2 Hc' Hpk'.
      eapply (disjoint_elim c p k'); eauto.
    - by split_and!.
    - by apply wf_tier_iff in Hwt as [? _].
    - intros k Hk. simpl. apply list_elem_of_fmap in Hk as [[k' r'] [-> He]].
      simpl. rewrite (dict_get_elem k' r'); [done| |done].
      by apply wf_tier_iff in Hwt as [? _]. }
  destruct b; simpl.
  - destruct (clear getsizeof clock d p true w) as [[p1 w1]|] eqn:Hcp;
      simpl; [|done].
    apply clear_single_inv in Hcp; [|done..].
    pose proof (evict_keys_kept p w (_item_dict p).*1 Hpp Hwp) as Hk.
    pose proof (evict_keys_drift (_item_dict p).*1 p w Hwp) as Hd.
    pose proof (fun k r => evict_keys_lookup (_item_dict p).*1 p w k r Hwp) as Hl.
    rewrite <- Hcp in *. simpl in *.
    apply Hloop; try done.
    intros k r Hg. by destruct (Hl _ _ Hg) as (? & _).
  - intros Hfold. apply (Hloop p w); try done.
    by rewrite set_parent_id.
Qed.

Lemma two_tier_step_aux d o c p w c' w' :
  two_tier c p ->
  (forall k, o = OpGet k -> _store c = MemoryCacheStore) ->
  run_op getsizeof clock d o c w = Ok (c', w') ->
  exists p', kept_two c p c' p'.
Proof.
  intros Htwo Hmem Hrun. destruct o as [k|k v|k|e|b]; simpl in Hrun.
  - destruct (get_value getsizeof clock d c k w) as [[[v c1] w1]|] eqn:Hg; [|done].
    simpl in Hrun. injection Hrun as <- <-.
    eapply get_value_two_inv; eauto.
  - by eapply put_value_two_inv.
  - by eapply remove_value_two_kept.
  - by eapply trim_two_kept.
  - by eapply clear_two_kept.
Qed.


Lemma run_ops_two_inv d os : forall c p w c' w',
  two_tier c p -> _store c = MemoryCacheStore ->
  run_ops getsizeof clock d os c w = Ok (c', w') ->
  exists p', kept_two c p c' p'.
Proof.
  unfold run_ops.
  induction os as [|o os IH]; intros c p w c' w' Htwo Hmem; simpl.
  - intros [= <- <-]. exists p. unfold kept_two.
    split_and!; first [done | apply Qle_refl].
  - destruct (run_op getsizeof clock d o c w) as [[c1 w1]|] eqn:Ho; [|done].
    simpl. intros Hrest.
    destruct (two_tier_step_aux _ _ _ _ _ _ _ Htwo (fun _ _ => Hmem) Ho)
      as (p1 & Htwo1 & Hs1 & ? & ? & ? & ? & ? & ?).
    destruct (IH c1 p1 w1 c' w' Htwo1 ltac:(congruence) Hrest)
      as (p' & ? & ? & ? & ? & ? & ? & ? & ?).
    exists p'. unfold kept_two. split_and!; try congruence; try lra. auto.
Qed.



End TwoTier.

(** ** Edges of the read and write paths *)

Section Edges.
Context (getsizeof : value -> N) (clock : nat -> Q).





End Edges.

(** ** Instances *)




















